(** * A shallow embedding of SQL.py: the personal-information manager

    The program is a Streamlit script over one SQLite table,
    [personal_info].  The embedding has three layers, as the script has:

    - the SQLite engine, restricted to the statements the script issues
      (module [Sqlite]);
    - [DatabaseManager], which opens a connection, runs one statement and
      closes the connection (module [DatabaseManager]);
    - the four pages and the download section, which read widget values and
      call the manager.

    Python exceptions and the mutable world (database file, open
    connections, the clock) are threaded by a small state-and-exception
    monad [M]. *)

From Stdlib Require Import ZArith List String Ascii Bool Lia.
From Stdlib Require Import DecimalString DecimalZ DecimalPos.
From Stdlib Require Import Permutation Sorted.
Import ListNotations.

Open Scope string_scope.
Open Scope Z_scope.

(** ** Data model *)

(** One row of [personal_info], columns in schema order. The script only
    ever binds Python [str] values to the text columns, so they are
    strings here. *)
Record row : Type := mkRow {
  id : Z;
  title : string;
  category : string;
  notes : string;
  priority : string;
  status : string;
  tags : string;
  created_at : string
}.

(** A [pandas.DataFrame] read from the table: its rows, in result order. *)
Definition DataFrame : Type := list row.

Definition empty (df : DataFrame) : bool :=
  match df with [] => true | _ :: _ => false end.

(** The table together with its AUTOINCREMENT high-water mark (SQLite keeps
    it in [sqlite_sequence]); [rows] are in rowid order. *)
Record table : Type := mkTable {
  rows : list row;
  seq : Z
}.

(** A value bound to a [?] placeholder: a Python [int] or [str]. *)
Inductive value : Type :=
| VInt (z : Z)
| VText (s : string).

(** The system clock, read as broken-down UTC time. *)
Record datetime : Type := mkDatetime {
  year : Z;
  month : Z;
  day : Z;
  hour : Z;
  minute : Z;
  second : Z;
  microsecond : Z
}.

Definition valid_datetime (t : datetime) : Prop :=
  0 <= year t <= 9999 /\ 1 <= month t <= 12 /\ 1 <= day t <= 31 /\
  0 <= hour t <= 23 /\ 0 <= minute t <= 59 /\ 0 <= second t <= 59 /\
  0 <= microsecond t <= 999999.

(** Chronological order on clock readings: lexicographic on the fields. *)
Definition lex (c : comparison) (k : comparison) : comparison :=
  match c with Eq => k | _ => c end.

Definition datetime_compare (a b : datetime) : comparison :=
  lex (year a ?= year b)
  (lex (month a ?= month b)
  (lex (day a ?= day b)
  (lex (hour a ?= hour b)
  (lex (minute a ?= minute b)
  (lex (second a ?= second b)
       (microsecond a ?= microsecond b)))))).

(** The same reading with the sub-second part dropped. *)
Definition truncate_second (t : datetime) : datetime :=
  mkDatetime (year t) (month t) (day t) (hour t) (minute t) (second t) 0.

Definition same_second (a b : datetime) : Prop :=
  truncate_second a = truncate_second b.

(** ** Text helpers *)

(** Python's [str(n)] for an integer. *)
Definition str (n : Z) : string := NilZero.string_of_int (Z.to_int n).

Definition digit (n : Z) : ascii := ascii_of_nat (48 + Z.to_nat n).

(** [n] in decimal, zero-padded to exactly [w] digits ([%0wd]). *)
Fixpoint pad (w : nat) (n : Z) : string :=
  match w with
  | O => ""
  | S w' => pad w' (n / 10) ++ String (digit (n mod 10)) ""
  end.

(** Python truthiness of a [str]: [not s] holds exactly for the empty
    string. *)
Definition not_ (s : string) : bool :=
  match s with EmptyString => true | String _ _ => false end.

(** [options.index(x)]: position of the first element equal to [x];
    [None] stands for the [ValueError] Python raises. *)
Fixpoint index (options : list string) (x : string) : option nat :=
  match options with
  | [] => None
  | o :: rest =>
      if String.eqb o x then Some O
      else match index rest x with
           | Some k => Some (S k)
           | None => None
           end
  end.

(** ** The SQLite engine, for the statements of the script *)

Module Sqlite.

(** SQLite's [CURRENT_TIMESTAMP]: UTC, ["YYYY-MM-DD HH:MM:SS"]. *)
Definition CURRENT_TIMESTAMP (t : datetime) : string :=
  pad 4 (year t) ++ "-" ++ pad 2 (month t) ++ "-" ++ pad 2 (day t) ++ " " ++
  pad 2 (hour t) ++ ":" ++ pad 2 (minute t) ++ ":" ++ pad 2 (second t).

(** The statement texts of the script, with runs of white space collapsed
    (SQL is insensitive to them). *)
Definition CREATE_TABLE : string :=
  "CREATE TABLE IF NOT EXISTS personal_info ( id INTEGER PRIMARY KEY AUTOINCREMENT, title TEXT NOT NULL, category TEXT, notes TEXT, priority TEXT, status TEXT, tags TEXT, created_at TEXT DEFAULT CURRENT_TIMESTAMP )".
Definition SELECT_ORDERED : string :=
  "SELECT * FROM personal_info ORDER BY created_at DESC".
Definition SELECT_BY_ID : string :=
  "SELECT * FROM personal_info WHERE id = ?".
Definition SELECT_ALL : string :=
  "SELECT * FROM personal_info".
Definition INSERT : string :=
  "INSERT INTO personal_info (title, category, notes, priority, status, tags) VALUES (?, ?, ?, ?, ?, ?)".
Definition UPDATE : string :=
  "UPDATE personal_info SET title = ?, category = ?, notes = ?, priority = ?, status = ?, tags = ? WHERE id = ?".
Definition DELETE_BY_ID : string :=
  "DELETE FROM personal_info WHERE id = ?".
Definition DELETE_ALL : string :=
  "DELETE FROM personal_info".

Inductive statement : Type :=
| CreateTable
| SelectOrdered
| SelectById
| SelectAll
| Insert
| Update
| DeleteById
| DeleteAll.

(** Compiling a statement text. Any other text is refused: the model knows
    the script's statements only. *)
Definition prepare (sql : string) : option statement :=
  if String.eqb sql CREATE_TABLE then Some CreateTable
  else if String.eqb sql SELECT_ORDERED then Some SelectOrdered
  else if String.eqb sql SELECT_BY_ID then Some SelectById
  else if String.eqb sql SELECT_ALL then Some SelectAll
  else if String.eqb sql INSERT then Some Insert
  else if String.eqb sql UPDATE then Some Update
  else if String.eqb sql DELETE_BY_ID then Some DeleteById
  else if String.eqb sql DELETE_ALL then Some DeleteAll
  else None.

(** [ORDER BY created_at DESC]: text comparison (BINARY collation), largest
    first. SQL leaves the order of equal keys open; this sorter keeps them
    in table order. *)
Definition text_lt (a b : string) : bool :=
  match String.compare a b with Lt => true | _ => false end.

Fixpoint insert_desc (r : row) (l : list row) : list row :=
  match l with
  | [] => [r]
  | x :: rest =>
      if text_lt (created_at r) (created_at x)
      then x :: insert_desc r rest
      else r :: x :: rest
  end.

Fixpoint order_by_created_at_desc (l : list row) : list row :=
  match l with
  | [] => []
  | r :: rest => insert_desc r (order_by_created_at_desc rest)
  end.

(** What [ORDER BY created_at DESC] promises of a result [out] over the
    rows [l]: the same rows, keys never increasing. *)
Definition created_at_ge (a b : row) : Prop :=
  text_lt (created_at a) (created_at b) = false.

Definition ordered_desc (l out : list row) : Prop :=
  Permutation l out /\ Sorted created_at_ge out.

Definition max_id (l : list row) : Z :=
  fold_right (fun r m => Z.max (id r) m) 0 l.

(** AUTOINCREMENT: one more than the largest rowid ever used. Rowids are
    unbounded integers here; the 64-bit ceiling of SQLite is not modelled. *)
Definition next_id (t : table) : Z := Z.max (seq t) (max_id (rows t)) + 1.

Definition set_fields (ti ca no pr st ta : string) (r : row) : row :=
  mkRow (id r) ti ca no pr st ta (created_at r).

(** The effect of one statement: the database afterwards ([None]: the table
    does not exist), the rows it yields, and the rowid it inserted. *)
Record effect : Type := mkEffect {
  db_after : option table;
  result : list row;
  inserted : option Z
}.

(** One statement with its bound parameters at clock reading [now].
    [None] is an engine error: no such table, or a parameter tuple of a
    shape the script never binds. *)
Definition step (s : statement) (params : list value) (now : datetime)
    (db : option table) : option effect :=
  match s, params, db with
  | CreateTable, [], None => Some (mkEffect (Some (mkTable [] 0)) [] None)
  | CreateTable, [], Some t => Some (mkEffect (Some t) [] None)
  | SelectOrdered, [], Some t =>
      Some (mkEffect db (order_by_created_at_desc (rows t)) None)
  | SelectById, [VInt i], Some t =>
      Some (mkEffect db (filter (fun r => id r =? i) (rows t)) None)
  | SelectAll, [], Some t => Some (mkEffect db (rows t) None)
  | Insert, [VText ti; VText ca; VText no; VText pr; VText st; VText ta],
    Some t =>
      let i := next_id t in
      let r := mkRow i ti ca no pr st ta (CURRENT_TIMESTAMP now) in
      Some (mkEffect (Some (mkTable (rows t ++ [r])%list i)) [] (Some i))
  | Update,
    [VText ti; VText ca; VText no; VText pr; VText st; VText ta; VInt i],
    Some t =>
      let upd r := if id r =? i then set_fields ti ca no pr st ta r else r in
      Some (mkEffect (Some (mkTable (map upd (rows t)) (seq t))) [] None)
  | DeleteById, [VInt i], Some t =>
      Some (mkEffect
              (Some (mkTable (filter (fun r => negb (id r =? i)) (rows t))
                             (seq t))) [] None)
  | DeleteAll, [], Some t => Some (mkEffect (Some (mkTable [] (seq t))) [] None)
  | _, _, _ => None
  end.

End Sqlite.

(** ** The world, and the monad of script code *)

Record world : Type := mkWorld {
  db : option table;                       (* the database file *)
  open_connections : nat;                  (* opened and not yet closed *)
  issued : list (string * list value);     (* statements sent, oldest first *)
  now : datetime                           (* the system clock *)
}.

Inductive exn : Type :=
| DatabaseError      (* raised by the engine, through sqlite3 or pandas *)
| ValueError         (* list.index: value not in list *)
| KeyError           (* dict lookup of a missing key *)
| IndexError.        (* .iloc[0] on an empty frame *)

Inductive outcome (A : Type) : Type :=
| Returns (a : A) (w : world)
| Raises (e : exn) (w : world).
Arguments Returns {A} a w.
Arguments Raises {A} e w.

Definition M (A : Type) : Type := world -> outcome A.

Definition ret {A : Type} (a : A) : M A := fun w => Returns a w.

Definition raise {A : Type} (e : exn) : M A := fun w => Raises e w.

Definition bind {A B : Type} (m : M A) (k : A -> M B) : M B :=
  fun w =>
    match m w with
    | Returns a w' => k a w'
    | Raises e w' => Raises e w'
    end.

Notation "x <- m ;; k" := (bind m (fun x => k))
  (at level 61, m at next level, right associativity).
Notation "m ;;; k" := (bind m (fun _ => k))
  (at level 61, right associativity).

Definition world_of {A : Type} (o : outcome A) : world :=
  match o with Returns _ w => w | Raises _ w => w end.

(** The environment moving the clock between two script runs. *)
Definition tick (t : datetime) (w : world) : world :=
  mkWorld (db w) (open_connections w) (issued w) t.

(** ** class DatabaseManager *)

Module DatabaseManager.

(** [sqlite3.connect(self.db_path)] *)
Definition get_connection : M unit :=
  fun w => Returns tt
    (mkWorld (db w) (S (open_connections w)) (issued w) (now w)).

(** [conn.close()] *)
Definition close : M unit :=
  fun w => Returns tt
    (mkWorld (db w) (Nat.pred (open_connections w)) (issued w) (now w)).

(** Handing one statement to the engine on an open connection. The statement
    is recorded as sent whether or not it succeeds. *)
Definition run (query : string) (params : list value) : M Sqlite.effect :=
  fun w =>
    let sent := (issued w ++ [(query, params)])%list in
    match Sqlite.prepare query with
    | None => Raises DatabaseError
                (mkWorld (db w) (open_connections w) sent (now w))
    | Some s =>
        match Sqlite.step s params (now w) (db w) with
        | None => Raises DatabaseError
                    (mkWorld (db w) (open_connections w) sent (now w))
        | Some e => Returns e
                      (mkWorld (Sqlite.db_after e) (open_connections w) sent
                               (now w))
        end
    end.

(** [pd.read_sql_query(query, conn, params=params)] *)
Definition read_sql_query (query : string) (params : list value)
    : M DataFrame :=
  e <- run query params ;; ret (Sqlite.result e).

(** [cursor.execute(query, params)]; the value is what [cursor.lastrowid]
    then reads: the inserted rowid, or Python's [None] when the statement
    inserted nothing. *)
Definition cursor_execute (query : string) (params : list value)
    : M (option Z) :=
  e <- run query params ;; ret (Sqlite.inserted e).

(** [conn.commit()]: the statement's change was applied by [run]; with no
    failure between [execute] and [commit] the two are one step here. *)
Definition commit : M unit := ret tt.

Definition init_database : M unit :=
  get_connection ;;;
  cursor_execute Sqlite.CREATE_TABLE [] ;;;
  commit ;;;
  close.

Definition execute_query (query : string) (params : list value)
    : M DataFrame :=
  get_connection ;;;
  df <- read_sql_query query params ;;
  close ;;;
  ret df.

Definition execute_update (query : string) (params : list value)
    : M (option Z) :=
  get_connection ;;;
  last_id <- cursor_execute query params ;;
  commit ;;;
  close ;;;
  ret last_id.

End DatabaseManager.

Import DatabaseManager.

(** ** The pages *)

(** What a page shows. Only notices, tables and metrics are kept; headers,
    layout and the input widgets themselves are presentation. The values the
    input widgets return are the arguments of each page function. *)
Inductive notice : Type :=
| st_info (body : string)
| st_error (body : string)
| st_success (body : string)
| st_warning (body : string)
| st_dataframe (df : DataFrame)
| st_metric (label : string) (n : nat).

(** The option lists of the select boxes and radio buttons. *)
Definition categories : list string :=
  ["荣誉"; "教育经历"; "竞赛"; "证书"; "账号"; "其他"].
Definition priorities : list string := ["高"; "中"; "低"].
Definition statuses : list string := ["进行中"; "已完成"; "待开始"].

(** [df["category"].nunique()] *)
Definition nunique (l : list string) : nat :=
  List.length (nodup string_dec l).

Definition count (p : row -> bool) (df : DataFrame) : nat :=
  List.length (filter p df).

Definition show_data_overview : M (list notice) :=
  df <- execute_query Sqlite.SELECT_ORDERED [] ;;
  if empty df then ret [st_info "暂无数据，请先添加个人信息"]
  else ret [st_dataframe df;
            st_metric "总记录数" (List.length df);
            st_metric "类别数量" (nunique (map category df));
            st_metric "进行中" (count (fun r => String.eqb (status r) "进行中") df);
            st_metric "高优先级" (count (fun r => String.eqb (priority r) "高") df)].

(** [st.rerun()] after a success only restarts the script; it is left out. *)
Definition add_info (title category priority status tags notes : string)
    (submitted : bool) : M (list notice) :=
  if submitted then
    if not_ title then ret [st_error "标题是必填项！"]
    else
      execute_update Sqlite.INSERT
        [VText title; VText category; VText notes; VText priority;
         VText status; VText tags] ;;;
      ret [st_success "信息添加成功！"]
  else ret [].

(** The key of a record in the edit page's select box:
    [f"{row['title']} (ID: {row['id']})"]. *)
Definition option_key (r : row) : string :=
  title r ++ " (ID: " ++ str (id r) ++ ")".

(** The dict comprehension over [df.iterrows()], as its items in row
    order. *)
Definition record_options (df : DataFrame) : list (string * Z) :=
  map (fun r => (option_key r, id r)) df.

(** [d[k]] on a dict given by its items: the last item under [k] is the
    one the dict holds. *)
Fixpoint getitem (d : list (string * Z)) (k : string) : option Z :=
  match d with
  | [] => None
  | (k', v) :: rest =>
      match getitem rest k with
      | Some v' => Some v'
      | None => if String.eqb k' k then Some v else None
      end
  end.

Definition lift {A : Type} (e : exn) (o : option A) : M A :=
  match o with Some a => ret a | None => raise e end.

(** [df[df["id"] == record_id].iloc[0]] *)
Definition iloc0 (record_id : Z) (df : DataFrame) : option row :=
  hd_error (filter (fun r => id r =? record_id) df).

(** The [index=] arguments of the category and priority select boxes and of
    the status radio: the position of the stored value in the widget's
    option list, a [ValueError] when it is not there. *)
Definition initial_positions (record_data : row) : M (nat * nat * nat) :=
  c <- lift ValueError (index categories (category record_data)) ;;
  p <- lift ValueError (index priorities (priority record_data)) ;;
  s <- lift ValueError (index statuses (status record_data)) ;;
  ret (c, p, s).

(** [selected_record] is the key the select box returns; [title] ... [notes]
    are what the form widgets return, [submitted] and [cancel] its two
    buttons. The widgets' initial positions are computed from the stored
    record before the form is read. *)
Definition edit_info (selected_record : string)
    (title category priority status tags notes : string)
    (submitted cancel : bool) : M (list notice) :=
  df <- execute_query Sqlite.SELECT_ORDERED [] ;;
  if empty df then ret [st_info "暂无数据可编辑"]
  else if not_ selected_record then ret []
  else
    record_id <- lift KeyError (getitem (record_options df) selected_record) ;;
    record_data <- lift IndexError (iloc0 record_id df) ;;
    initial_positions record_data ;;;
    if cancel then ret []
    else if submitted then
      if not_ title then ret [st_error "标题是必填项！"]
      else
        execute_update Sqlite.UPDATE
          [VText title; VText category; VText notes; VText priority;
           VText status; VText tags; VInt record_id] ;;;
        ret [st_success "信息更新成功！"]
    else ret [].

(** [delete_option] is the radio's value, [record_id] the number input
    ([min_value=1]), [button] the button shown under the chosen option and
    [confirm] the check box. *)
Definition delete_info (delete_option : string) (record_id : Z)
    (button confirm : bool) : M (list notice) :=
  df <- execute_query Sqlite.SELECT_ORDERED [] ;;
  if empty df then ret [st_info "暂无数据可删除"]
  else if String.eqb delete_option "按ID删除单条记录" then
    if button then
      check_record <- execute_query Sqlite.SELECT_BY_ID [VInt record_id] ;;
      if empty check_record
      then ret [st_dataframe df;
                st_error ("ID为 " ++ str record_id ++ " 的记录不存在！")]
      else
        execute_update Sqlite.DELETE_BY_ID [VInt record_id] ;;;
        ret [st_dataframe df;
             st_success ("ID为 " ++ str record_id ++ " 的记录已删除！")]
    else ret [st_dataframe df]
  else
    if confirm then
      if button then
        execute_update Sqlite.DELETE_ALL [] ;;;
        ret [st_dataframe df; st_warning "⚠️ 危险操作：这将删除所有记录！";
             st_success "所有记录已删除！"]
      else ret [st_dataframe df; st_warning "⚠️ 危险操作：这将删除所有记录！"]
    else ret [st_dataframe df; st_warning "⚠️ 危险操作：这将删除所有记录！"].

(** The spec's error names, as the notices the pages show for them. *)
Definition ValidationError : notice := st_error "标题是必填项！".
Definition NotFoundError (record_id : Z) : notice :=
  st_error ("ID为 " ++ str record_id ++ " 的记录不存在！").

(** ** CSV export *)

Module Csv.

Definition quotechar : ascii := "034"%char.
Definition delimiter : ascii := ","%char.
Definition LF : ascii := "010"%char.
Definition CR : ascii := "013"%char.

(** [df.to_csv(index=False)] writes through Python's [csv.writer] with
    minimal quoting and the line terminator LF: a cell is quoted when it
    holds the delimiter, the quote character or the line terminator, and
    quotes inside it are doubled. A carriage return does not make the writer
    quote a cell. *)
Definition special (c : ascii) : bool :=
  Ascii.eqb c delimiter || Ascii.eqb c quotechar || Ascii.eqb c LF.

Fixpoint has_special (s : string) : bool :=
  match s with
  | EmptyString => false
  | String c rest => special c || has_special rest
  end.

Fixpoint double_quotes (s : string) : string :=
  match s with
  | EmptyString => EmptyString
  | String c rest =>
      if Ascii.eqb c quotechar
      then String quotechar (String quotechar (double_quotes rest))
      else String c (double_quotes rest)
  end.

Fixpoint has_CR (s : string) : bool :=
  match s with
  | EmptyString => false
  | String c rest => Ascii.eqb c CR || has_CR rest
  end.

(** A cell the writer leaves unquoted although it holds a carriage
    return. *)
Definition bare_CR (s : string) : bool := negb (has_special s) && has_CR s.

Definition write_cell (s : string) : string :=
  if has_special s
  then String quotechar (double_quotes s ++ String quotechar EmptyString)
  else s.

Fixpoint join_cells (cells : list string) : string :=
  match cells with
  | [] => EmptyString
  | [c] => write_cell c
  | c :: rest => write_cell c ++ String delimiter (join_cells rest)
  end.

Definition write_line (cells : list string) : string :=
  join_cells cells ++ String LF EmptyString.

Definition columns : list string :=
  ["id"; "title"; "category"; "notes"; "priority"; "status"; "tags";
   "created_at"].

Definition cells_of (r : row) : list string :=
  [str (id r); title r; category r; notes r; priority r; status r; tags r;
   created_at r].

Definition to_csv (df : DataFrame) : string :=
  write_line columns ++ String.concat "" (map (fun r => write_line (cells_of r)) df).

(** Modelled from the spec: the program has no CSV reader; "re-reading that
    CSV" is modelled as the standard reader for comma-delimited text with
    double-quote quoting (the automaton of Python's [csv.reader]): a quoted
    cell runs to its closing quote, a doubled quote inside it is one quote,
    a line break outside quotes ends the record, blank lines are skipped. *)
Inductive reader_state : Type :=
| StartRecord
| StartCell
| InCell
| InQuotedCell
| QuoteInQuotedCell.

Definition snoc (s : string) (c : ascii) : string := s ++ String c EmptyString.

Fixpoint parse (st : reader_state) (cell : string) (cells : list string)
    (records : list (list string)) (text : string) : list (list string) :=
  match text with
  | EmptyString =>
      match st with
      | StartRecord => records
      | _ => (records ++ [(cells ++ [cell])%list])%list
      end
  | String c rest =>
      let line_break := Ascii.eqb c LF || Ascii.eqb c CR in
      match st with
      | StartRecord =>
          if line_break then parse StartRecord "" [] records rest
          else if Ascii.eqb c quotechar then parse InQuotedCell "" [] records rest
          else if Ascii.eqb c delimiter then parse StartCell "" [""] records rest
          else parse InCell (String c "") [] records rest
      | StartCell =>
          if line_break
          then parse StartRecord "" [] (records ++ [(cells ++ [""])%list])%list rest
          else if Ascii.eqb c quotechar then parse InQuotedCell "" cells records rest
          else if Ascii.eqb c delimiter
          then parse StartCell "" (cells ++ [""])%list records rest
          else parse InCell (String c "") cells records rest
      | InCell =>
          if line_break
          then parse StartRecord "" [] (records ++ [(cells ++ [cell])%list])%list rest
          else if Ascii.eqb c delimiter
          then parse StartCell "" (cells ++ [cell])%list records rest
          else parse InCell (snoc cell c) cells records rest
      | InQuotedCell =>
          if Ascii.eqb c quotechar
          then parse QuoteInQuotedCell cell cells records rest
          else parse InQuotedCell (snoc cell c) cells records rest
      | QuoteInQuotedCell =>
          if Ascii.eqb c quotechar
          then parse InQuotedCell (snoc cell c) cells records rest
          else if line_break
          then parse StartRecord "" [] (records ++ [(cells ++ [cell])%list])%list rest
          else if Ascii.eqb c delimiter
          then parse StartCell "" (cells ++ [cell])%list records rest
          else parse InCell (snoc cell c) cells records rest
      end
  end.

Definition read_csv (text : string) : list (list string) :=
  parse StartRecord "" [] [] text.

(** Where the reader stands after a cell that ended with [term]: at the next
    cell of the record, or at the next record. *)
Definition after (term : ascii) (cells : list string) (cell : string)
    (records : list (list string)) (rest : string) : list (list string) :=
  if Ascii.eqb term delimiter
  then parse StartCell "" (cells ++ [cell])%list records rest
  else parse StartRecord "" [] (records ++ [(cells ++ [cell])%list])%list rest.

Definition terminator (term : ascii) : Prop := term = delimiter \/ term = LF.

(** A line the writer never produces as a blank one. *)
Definition written_line (cells : list string) : Prop :=
  match cells with
  | [] => False
  | [c] => c <> ""
  | _ :: _ :: _ => True
  end.

End Csv.

(** The mutable columns of a record, the tuple the round trip compares. *)
Definition mutable_fields (r : row)
    : string * string * string * string * string * string :=
  (title r, category r, notes r, priority r, status r, tags r).

(** The same tuple read off one CSV record under the header [Csv.columns]. *)
Definition mutable_cells (cells : list string)
    : option (string * string * string * string * string * string) :=
  match cells with
  | [_; ti; ca; no; pr; st; ta; _] => Some (ti, ca, no, pr, st, ta)
  | _ => None
  end.

(** No text cell of the row is written with a bare carriage return. *)
Definition csv_safe (r : row) : Prop :=
  Forall (fun c => Csv.bare_CR c = false)
    [title r; category r; notes r; priority r; status r; tags r;
     created_at r].

(** The download section: the CSV text handed to the download button, when
    there is one. The file name and the sidebar captions are left out. *)
Definition add_download_section : M (option string) :=
  df <- execute_query Sqlite.SELECT_ALL [] ;;
  if negb (empty df) then ret (Some (Csv.to_csv df)) else ret None.

(** ** Script runs *)

(** One run of the script: the page chosen in the sidebar with the values
    of its widgets. *)
Inductive page : Type :=
| DataOverview
| AddInfo (title category priority status tags notes : string)
    (submitted : bool)
| EditInfo (selected_record : string)
    (title category priority status tags notes : string)
    (submitted cancel : bool)
| DeleteInfo (delete_option : string) (record_id : Z) (button confirm : bool).

Definition main (menu : page) : M (list notice) :=
  match menu with
  | DataOverview => show_data_overview
  | AddInfo ti ca pr st ta no sub => add_info ti ca pr st ta no sub
  | EditInfo sel ti ca pr st ta no sub can =>
      edit_info sel ti ca pr st ta no sub can
  | DeleteInfo opt rid b c => delete_info opt rid b c
  end.

(** The module-level code and the [__main__] block: the manager is built
    (which initialises the database), the chosen page runs, then the
    download section. *)
Definition script (menu : page) : M (list notice * option string) :=
  init_database ;;;
  shown <- main menu ;;
  download <- add_download_section ;;
  ret (shown, download).

(** ** Invariants and traces *)

(** What the schema guarantees of the stored table: [id] is a primary key,
    and no rowid exceeds the AUTOINCREMENT high-water mark. *)
Definition wf_table (t : table) : Prop :=
  NoDup (map id (rows t)) /\ Forall (fun r => id r <= seq t) (rows t).

Definition present (i : Z) (t : table) : Prop := In i (map id (rows t)).

(** The six values of a form, in the order of the INSERT parameters. *)
Record fields : Type := mkFields {
  f_title : string;
  f_category : string;
  f_notes : string;
  f_priority : string;
  f_status : string;
  f_tags : string
}.

Definition insert_params (f : fields) : list value :=
  [VText (f_title f); VText (f_category f); VText (f_notes f);
   VText (f_priority f); VText (f_status f); VText (f_tags f)].

Definition has_fields (f : fields) (r : row) : Prop :=
  title r = f_title f /\ category r = f_category f /\ notes r = f_notes f /\
  priority r = f_priority f /\ status r = f_status f /\ tags r = f_tags f.

(** Submitting the add form with the values [f]. *)
Definition submit_add (f : fields) : M (list notice) :=
  add_info (f_title f) (f_category f) (f_priority f) (f_status f) (f_tags f)
    (f_notes f) true.

Definition update_params (f : fields) (record_id : Z) : list value :=
  (insert_params f ++ [VInt record_id])%list.

(** The row an INSERT of [f] creates in [t] at clock reading [at_] and the
    tables the three writing statements leave. *)
Definition inserted_row (t : table) (f : fields) (at_ : datetime) : row :=
  mkRow (Sqlite.next_id t) (f_title f) (f_category f) (f_notes f)
    (f_priority f) (f_status f) (f_tags f) (Sqlite.CURRENT_TIMESTAMP at_).

Definition inserted_table (t : table) (f : fields) (at_ : datetime) : table :=
  mkTable (rows t ++ [inserted_row t f at_])%list (Sqlite.next_id t).

Definition overwrite (f : fields) (r : row) : row :=
  Sqlite.set_fields (f_title f) (f_category f) (f_notes f) (f_priority f)
    (f_status f) (f_tags f) r.

Definition updated_table (t : table) (f : fields) (record_id : Z) : table :=
  mkTable (map (fun r => if id r =? record_id then overwrite f r else r)
             (rows t)) (seq t).

Definition deleted_table (t : table) (record_id : Z) : table :=
  mkTable (filter (fun r => negb (id r =? record_id)) (rows t)) (seq t).

(** The part of a text after its last blank (the whole text when it has
    none); on a select-box key it is the printed id with the closing
    bracket. *)
Fixpoint has_blank (s : string) : bool :=
  match s with
  | EmptyString => false
  | String c rest => Ascii.eqb c " " || has_blank rest
  end.

Fixpoint last_word (s : string) : string :=
  match s with
  | EmptyString => EmptyString
  | String c rest =>
      if has_blank rest then last_word rest
      else if Ascii.eqb c " " then rest else s
  end.

(** The stored values of the three choice columns are among the options
    the widgets offer. *)
Definition enumerated (r : row) : Prop :=
  In (category r) categories /\ In (priority r) priorities /\
  In (status r) statuses.

(** How one run of a page may change the table, at clock reading [at_]. *)
Inductive table_step (at_ : datetime) (t : table) : table -> Prop :=
| step_none : table_step at_ t t
| step_insert (f : fields) : table_step at_ t (inserted_table t f at_)
| step_update (f : fields) (i : Z) : table_step at_ t (updated_table t f i)
| step_delete (i : Z) : table_step at_ t (deleted_table t i)
| step_clear : table_step at_ t (mkTable [] (seq t)).

(** Script runs one after the other, each started when the clock reads the
    paired time; a run that raises leaves the world as it was when it
    raised. *)
Fixpoint runs (l : list (datetime * page)) (w : world) : world :=
  match l with
  | [] => w
  | (t, p) :: rest => runs rest (world_of (script p (tick t w)))
  end.

(** The table after a series of INSERTs, one per submission. *)
Fixpoint insert_all (subs : list (datetime * fields)) (t : table) : table :=
  match subs with
  | [] => t
  | (at_, f) :: rest => insert_all rest (inserted_table t f at_)
  end.

(** The rows those INSERTs create, oldest first. *)
Fixpoint inserted_rows (subs : list (datetime * fields)) (t : table)
    : list row :=
  match subs with
  | [] => []
  | (at_, f) :: rest =>
      inserted_row t f at_ :: inserted_rows rest (inserted_table t f at_)
  end.


(** A page run on a world whose table is [t] leaves a table one step away,
    and does not touch the clock. *)
Definition steps_table {A : Type} (w : world) (t : table) (o : outcome A)
    : Prop :=
  exists t', db (world_of o) = Some t' /\ table_step (now w) t t' /\
             now (world_of o) = now w.

(** [t'] continues [t]: it is well formed, its high-water mark is no lower,
    and each of its rows either carries on a row of [t], id and [created_at]
    kept, or has an id above [t]'s high-water mark. *)
Definition continues (t t' : table) : Prop :=
  wf_table t' /\ seq t <= seq t' /\
  forall r', In r' (rows t') ->
    (exists r, In r (rows t) /\ id r = id r' /\ created_at r = created_at r') \/
    seq t < id r'.

(** A series of calls, each made when the clock reads the paired time;
    the values returned are collected in order. A call that raises ends
    the series. *)
Fixpoint each {A : Type} (calls : list (datetime * M A)) : M (list A) :=
  match calls with
  | [] => ret []
  | (t, m) :: rest =>
      fun w =>
        match m (tick t w) with
        | Returns a w' =>
            match each rest w' with
            | Returns l w'' => Returns (a :: l) w''
            | Raises e w'' => Raises e w''
            end
        | Raises e w' => Raises e w'
        end
  end.

(** Chronological order of two clock readings at one-second resolution:
    [a] is not earlier than [b]. *)
Definition second_ge (a b : datetime) : Prop :=
  datetime_compare (truncate_second a) (truncate_second b) <> Lt.

(** The row [r] is what the submission [x] (clock reading and form values)
    was stored as. *)
Definition inserted_as (r : row) (x : datetime * fields) : Prop :=
  created_at r = Sqlite.CURRENT_TIMESTAMP (fst x) /\ has_fields (snd x) r.

(** Submissions in listing order: the earlier one in the list was not made
    in an earlier second. *)
Definition later_first (x y : datetime * fields) : Prop :=
  second_ge (fst x) (fst y).

(** ** Worlds used as concrete instances *)

Definition noon : datetime := mkDatetime 2024 5 17 12 0 0 0.

(** A database file in which the table has not been created. *)
Definition blank_world : world := mkWorld None 0 [] noon.

(** The world right after the first start-up. *)
Definition started_world : world := mkWorld (Some (mkTable [] 0)) 0 [] noon.

Definition award : fields :=
  mkFields "Model Student Award" "荣誉" "" "高" "进行中" "school,2024".

Definition award_row : row :=
  mkRow 1 "Model Student Award" "荣誉" "" "高" "进行中" "school,2024"
    "2024-05-17 12:00:00".

Definition one_row_world : world :=
  mkWorld (Some (mkTable [award_row] 1)) 0 [] noon.

Definition one_pm : datetime := mkDatetime 2024 5 17 13 0 0 500000.

Definition diploma : fields :=
  mkFields "Diploma" "教育经历" "" "中" "已完成" "".

(** Every statement text the program holds. *)
Definition script_statements : list string :=
  [Sqlite.CREATE_TABLE; Sqlite.SELECT_ORDERED; Sqlite.SELECT_BY_ID;
   Sqlite.SELECT_ALL; Sqlite.INSERT; Sqlite.UPDATE; Sqlite.DELETE_BY_ID;
   Sqlite.DELETE_ALL].

(** [m] sends the engine nothing but statements whose text is in [texts]. *)
Definition only_sends {A : Type} (texts : list string) (m : M A) : Prop :=
  forall w, exists new,
    issued (world_of (m w)) = (issued w ++ new)%list /\
    Forall (fun s => In (fst s) texts) new.

(** A title carrying SQL text. *)
Definition hostile_title : string := "x'); DROP TABLE personal_info; --".

(** A stored record whose category is none of the select box's options. *)
Definition unlisted_row : row :=
  mkRow 1 "Old entry" "杂项" "" "高" "进行中" "" "2024-05-17 12:00:00".

Definition unlisted_world : world :=
  mkWorld (Some (mkTable [unlisted_row] 1)) 0 [] noon.

(** A record with a carriage return in its notes, and nothing in them that
    makes the writer quote. *)
Definition cr_row : row :=
  mkRow 1 "Minutes" "其他" ("first" ++ String Csv.CR "second") "中" "已完成" ""
    "2024-05-17 12:00:00".

Definition cr_world : world := mkWorld (Some (mkTable [cr_row] 1)) 0 [] noon.

(** A record whose cells need quoting. *)
Definition quoted_row : row :=
  mkRow 2 "Cup, regional" "竞赛" ("line one" ++ String Csv.LF "line two")
    "中" "已完成" "a,b" "2024-05-17 13:00:00".

Definition two_row_world : world :=
  mkWorld (Some (mkTable [award_row; quoted_row] 2)) 0 [] one_pm.

(** The statement log of [w] with one more statement sent. *)
Definition sent (query : string) (params : list value) (w : world)
    : list (string * list value) :=
  (issued w ++ [(query, params)])%list.

(** On a database that has the table, [m] ends with the table still there
    and every connection it opened closed, and it does not raise an engine
    error. *)
Definition runs_clean {A : Type} (m : M A) : Prop :=
  forall w,
    db w <> None ->
    db (world_of (m w)) <> None /\
    open_connections (world_of (m w)) = open_connections w /\
    forall e w', m w = Raises e w' -> e <> DatabaseError.

(** Two records under one title. *)
Definition namesake_row : row :=
  mkRow 2 "Model Student Award" "证书" "" "低" "已完成" ""
    "2024-05-17 13:00:00".

(** The table is well formed and no stored title is empty. *)
Definition sound (t : table) : Prop :=
  wf_table t /\ Forall (fun r => title r <> "") (rows t).

(** [DB_PATH] as the caption prints it (POSIX separators). *)
Definition DB_PATH : string := "data/personal_info.db".

(** [t.strftime('%Y%m%d_%H%M%S')], for the four-digit years a clock shows
    (for a year below 1000 the C library's [%Y] does not pad). *)
Definition strftime (t : datetime) : string :=
  pad 4 (year t) ++ pad 2 (month t) ++ pad 2 (day t) ++ "_" ++
  pad 2 (hour t) ++ pad 2 (minute t) ++ pad 2 (second t).

(** The [file_name] f-string of the download button. *)
Definition file_name_at (local_now : datetime) : string :=
  "personal_info_" ++ strftime local_now ++ ".csv".

Inductive sidebar_item : Type :=
| download_button (label data file_name mime : string)
| sidebar_text (body : string).

(** [add_download_section] with the button and the two captions it puts
    in the sidebar (rules and subheaders are left out); [local_now] is what
    [datetime.now()] returns, the local wall clock. *)
Definition download_section (local_now : datetime) : M (list sidebar_item) :=
  df <- execute_query Sqlite.SELECT_ALL [] ;;
  if negb (empty df) then
    ret [download_button "📥 下载CSV" (Csv.to_csv df) (file_name_at local_now)
           "text/csv";
         sidebar_text ("记录数: " ++ str (Z.of_nat (List.length df)));
         sidebar_text ("数据库路径: " ++ DB_PATH)]
  else ret [].


(** ** Reasoning about monadic code *)

Ltac unfold_m :=
  unfold execute_query, execute_update, init_database, read_sql_query,
    cursor_execute, commit, close, get_connection, run, lift,
    bind, ret, raise in *.

(** ** The manager's methods, in closed form *)

Lemma execute_query_ok query params w s e :
  Sqlite.prepare query = Some s ->
  Sqlite.step s params (now w) (db w) = Some e ->
  execute_query query params w =
  Returns (Sqlite.result e)
    (mkWorld (Sqlite.db_after e) (open_connections w) (sent query params w)
       (now w)).
Proof.
  intros Hp Hs. unfold_m. simpl. rewrite Hp, Hs. reflexivity.
Qed.

Lemma execute_update_ok query params w s e :
  Sqlite.prepare query = Some s ->
  Sqlite.step s params (now w) (db w) = Some e ->
  execute_update query params w =
  Returns (Sqlite.inserted e)
    (mkWorld (Sqlite.db_after e) (open_connections w) (sent query params w)
       (now w)).
Proof.
  intros Hp Hs. unfold_m. simpl. rewrite Hp, Hs. reflexivity.
Qed.

(** ** Connections (C7) *)

(** C7 (as the specification words it, refuted): the table is missing from
    the database file, the overview query fails, and [execute_query] raises
    with the connection it opened still open; so does [execute_update] on a
    statement the engine rejects. *)
Lemma execute_query_raises_with_open_connection :
  open_connections blank_world = 0%nat /\
  (exists w',
      execute_query Sqlite.SELECT_ORDERED [] blank_world =
        Raises DatabaseError w' /\
      open_connections w' = 1%nat) /\
  open_connections started_world = 0%nat /\
  exists w',
    execute_update "DELETE FROM" [] started_world = Raises DatabaseError w' /\
    open_connections w' = 1%nat.
Proof.
  split; [reflexivity|]. split; [eexists; split; reflexivity|].
  split; [reflexivity|]. eexists. split; reflexivity.
Qed.

(** C7 (as the code has it): every manager method opens one connection at
    the start of the call; when the call returns, that connection has been
    closed; when the statement fails, the call raises and the connection is
    still open. *)
Theorem connection_closed_on_return_only :
  (forall query params w,
      match execute_query query params w with
      | Returns _ w' => open_connections w' = open_connections w
      | Raises _ w' => open_connections w' = S (open_connections w)
      end) /\
  (forall query params w,
      match execute_update query params w with
      | Returns _ w' => open_connections w' = open_connections w
      | Raises _ w' => open_connections w' = S (open_connections w)
      end) /\
  (forall w,
      match init_database w with
      | Returns _ w' => open_connections w' = open_connections w
      | Raises _ w' => open_connections w' = S (open_connections w)
      end).
Proof.
  repeat split; intros; unfold_m; simpl.
  - destruct (Sqlite.prepare query) as [s|]; [|reflexivity].
    destruct (Sqlite.step s params (now w) (db w)); reflexivity.
  - destruct (Sqlite.prepare query) as [s|]; [|reflexivity].
    destruct (Sqlite.step s params (now w) (db w)); reflexivity.
  - destruct (db w); reflexivity.
Qed.

(** ** The statements of the script on an existing table *)

Lemma table_eta (t : table) : mkTable (rows t) (seq t) = t.
Proof. destruct t; reflexivity. Qed.

Lemma select_ordered_ok w t :
  db w = Some t ->
  execute_query Sqlite.SELECT_ORDERED [] w =
  Returns (Sqlite.order_by_created_at_desc (rows t))
    (mkWorld (db w) (open_connections w) (sent Sqlite.SELECT_ORDERED [] w)
       (now w)).
Proof.
  intros Hdb.
  rewrite (execute_query_ok _ _ w Sqlite.SelectOrdered
             (Sqlite.mkEffect (db w)
                (Sqlite.order_by_created_at_desc (rows t)) None)).
  - reflexivity.
  - reflexivity.
  - rewrite Hdb. reflexivity.
Qed.

Lemma select_by_id_ok w t i :
  db w = Some t ->
  execute_query Sqlite.SELECT_BY_ID [VInt i] w =
  Returns (filter (fun r => id r =? i) (rows t))
    (mkWorld (db w) (open_connections w)
       (sent Sqlite.SELECT_BY_ID [VInt i] w) (now w)).
Proof.
  intros Hdb.
  rewrite (execute_query_ok _ _ w Sqlite.SelectById
             (Sqlite.mkEffect (db w)
                (filter (fun r => id r =? i) (rows t)) None)).
  - reflexivity.
  - reflexivity.
  - rewrite Hdb. reflexivity.
Qed.

Lemma select_all_ok w t :
  db w = Some t ->
  execute_query Sqlite.SELECT_ALL [] w =
  Returns (rows t)
    (mkWorld (db w) (open_connections w) (sent Sqlite.SELECT_ALL [] w)
       (now w)).
Proof.
  intros Hdb.
  rewrite (execute_query_ok _ _ w Sqlite.SelectAll
             (Sqlite.mkEffect (db w) (rows t) None)).
  - reflexivity.
  - reflexivity.
  - rewrite Hdb. reflexivity.
Qed.

Lemma insert_ok w t f :
  db w = Some t ->
  execute_update Sqlite.INSERT (insert_params f) w =
  Returns (Some (Sqlite.next_id t))
    (mkWorld (Some (inserted_table t f (now w))) (open_connections w)
       (sent Sqlite.INSERT (insert_params f) w) (now w)).
Proof.
  intros Hdb.
  rewrite (execute_update_ok _ _ w Sqlite.Insert
             (Sqlite.mkEffect (Some (inserted_table t f (now w))) []
                (Some (Sqlite.next_id t)))).
  - reflexivity.
  - reflexivity.
  - rewrite Hdb. reflexivity.
Qed.

Lemma update_ok w t f i :
  db w = Some t ->
  execute_update Sqlite.UPDATE (update_params f i) w =
  Returns None
    (mkWorld (Some (updated_table t f i)) (open_connections w)
       (sent Sqlite.UPDATE (update_params f i) w) (now w)).
Proof.
  intros Hdb.
  rewrite (execute_update_ok _ _ w Sqlite.Update
             (Sqlite.mkEffect (Some (updated_table t f i)) [] None)).
  - reflexivity.
  - reflexivity.
  - rewrite Hdb. reflexivity.
Qed.

Lemma delete_by_id_ok w t i :
  db w = Some t ->
  execute_update Sqlite.DELETE_BY_ID [VInt i] w =
  Returns None
    (mkWorld (Some (deleted_table t i)) (open_connections w)
       (sent Sqlite.DELETE_BY_ID [VInt i] w) (now w)).
Proof.
  intros Hdb.
  rewrite (execute_update_ok _ _ w Sqlite.DeleteById
             (Sqlite.mkEffect (Some (deleted_table t i)) [] None)).
  - reflexivity.
  - reflexivity.
  - rewrite Hdb. reflexivity.
Qed.

Lemma delete_all_ok w t :
  db w = Some t ->
  execute_update Sqlite.DELETE_ALL [] w =
  Returns None
    (mkWorld (Some (mkTable [] (seq t))) (open_connections w)
       (sent Sqlite.DELETE_ALL [] w) (now w)).
Proof.
  intros Hdb.
  rewrite (execute_update_ok _ _ w Sqlite.DeleteAll
             (Sqlite.mkEffect (Some (mkTable [] (seq t))) [] None)).
  - reflexivity.
  - reflexivity.
  - rewrite Hdb. reflexivity.
Qed.

(** ** Adding a record (C1) *)

Lemma not_false_iff (s : string) : not_ s = false <-> s <> "".
Proof. destruct s; simpl; split; congruence. Qed.

Lemma add_info_submitted w t ti ca pr st ta no :
  db w = Some t ->
  ti <> "" ->
  add_info ti ca pr st ta no true w =
  Returns [st_success "信息添加成功！"]
    (mkWorld (Some (inserted_table t (mkFields ti ca no pr st ta) (now w)))
       (open_connections w)
       (sent Sqlite.INSERT (insert_params (mkFields ti ca no pr st ta)) w)
       (now w)).
Proof.
  intros Hdb Hti. unfold add_info.
  apply not_false_iff in Hti. rewrite Hti.
  unfold bind at 1.
  change [VText ti; VText ca; VText no; VText pr; VText st; VText ta]
    with (insert_params (mkFields ti ca no pr st ta)).
  rewrite (insert_ok w t _ Hdb). reflexivity.
Qed.

(** C1: a submitted add form with an empty title is answered with the
    validation error and the world (so the table, its row count and content)
    is unchanged; with a non-empty title the insert succeeds and the table is
    the old one with exactly one row appended, holding the submitted
    values. *)
Theorem add_info_requires_title :
  forall w t ti ca pr st ta no,
    db w = Some t ->
    (ti = "" ->
     add_info ti ca pr st ta no true w = Returns [ValidationError] w) /\
    (ti <> "" ->
     exists r w',
       add_info ti ca pr st ta no true w =
         Returns [st_success "信息添加成功！"] w' /\
       (exists t', db w' = Some t' /\ rows t' = (rows t ++ [r])%list /\
                   List.length (rows t') = S (List.length (rows t))) /\
       mutable_fields r = (ti, ca, no, pr, st, ta)).
Proof.
  intros w t ti ca pr st ta no Hdb. split.
  - intros ->. reflexivity.
  - intros Hti.
    exists (inserted_row t (mkFields ti ca no pr st ta) (now w)).
    eexists. split; [apply (add_info_submitted w t); assumption|].
    split; [|reflexivity].
    eexists. split; [reflexivity|]. simpl. split; [reflexivity|].
    rewrite length_app. simpl. lia.
Qed.

(** C1 on the freshly started world: an empty and a non-empty title. *)
Lemma add_info_requires_title_witness :
  db started_world = Some (mkTable [] 0) /\
  add_info "" "荣誉" "中" "进行中" "" "" true started_world =
    Returns [ValidationError] started_world /\
  exists r w',
    add_info "Model Student Award" "荣誉" "高" "进行中" "school,2024" "" true
      started_world = Returns [st_success "信息添加成功！"] w' /\
    (exists t', db w' = Some t' /\ rows t' = ([] ++ [r])%list /\
                List.length (rows t') = 1%nat) /\
    mutable_fields r =
      ("Model Student Award", "荣誉", "", "高", "进行中", "school,2024").
Proof.
  split; [reflexivity|]. split.
  - apply (add_info_requires_title started_world (mkTable [] 0)
             "" "荣誉" "中" "进行中" "" "" eq_refl). reflexivity.
  - apply (add_info_requires_title started_world (mkTable [] 0)
             "Model Student Award" "荣誉" "高" "进行中" "school,2024" ""
             eq_refl).
    discriminate.
Defined.

(** ** Binding results, empty frames, absent ids *)

Lemma bind_returns {A B : Type} (m : M A) (k : A -> M B) w a w' :
  m w = Returns a w' -> bind m k w = k a w'.
Proof. intros H. unfold bind. rewrite H. reflexivity. Qed.

Lemma insert_desc_not_nil r l : Sqlite.insert_desc r l <> [].
Proof.
  destruct l as [|x l]; simpl; [discriminate|].
  destruct (Sqlite.text_lt (created_at r) (created_at x)); discriminate.
Qed.

Lemma empty_order_by l :
  empty (Sqlite.order_by_created_at_desc l) = empty l.
Proof.
  destruct l as [|r l]; [reflexivity|]. simpl.
  destruct (Sqlite.insert_desc r (Sqlite.order_by_created_at_desc l)) eqn:E.
  - now apply insert_desc_not_nil in E.
  - reflexivity.
Qed.

Lemma filter_absent i l :
  ~ In i (map id l) -> filter (fun r => id r =? i) l = [].
Proof.
  induction l as [|r l IH]; simpl; intros H; [reflexivity|].
  destruct (Z.eqb_spec (id r) i) as [E|E].
  - exfalso. apply H. now left.
  - apply IH. intros Hin. apply H. now right.
Qed.

Lemma update_absent f i l :
  ~ In i (map id l) ->
  map (fun r => if id r =? i then overwrite f r else r) l = l.
Proof.
  induction l as [|r l IH]; simpl; intros H; [reflexivity|].
  destruct (Z.eqb_spec (id r) i) as [E|E].
  - exfalso. apply H. now left.
  - f_equal. apply IH. intros Hin. apply H. now right.
Qed.

Lemma update_absent_gen l i (new : row) :
  ~ In i (map id l) ->
  map (fun r => if id r =? i then new else r) l = l.
Proof.
  induction l as [|r l IH]; simpl; intros H; [reflexivity|].
  destruct (Z.eqb_spec (id r) i) as [E|E].
  - exfalso. apply H. now left.
  - f_equal. apply IH. intros Hin. apply H. now right.
Qed.

Lemma updated_table_absent t f i :
  ~ present i t -> updated_table t f i = t.
Proof.
  intros H. unfold updated_table. rewrite update_absent by exact H.
  apply table_eta.
Qed.

(** ** The sorter of ORDER BY *)

Lemma text_lt_flip a b :
  Sqlite.text_lt a b = true -> Sqlite.text_lt b a = false.
Proof.
  unfold Sqlite.text_lt. rewrite (String.compare_antisym b a).
  destruct (String.compare a b); simpl; congruence.
Qed.

Lemma insert_desc_perm r l : Permutation (r :: l) (Sqlite.insert_desc r l).
Proof.
  induction l as [|x l IH]; simpl; [apply Permutation_refl|].
  destruct (Sqlite.text_lt (created_at r) (created_at x)).
  - eapply perm_trans; [apply perm_swap|]. now apply perm_skip.
  - apply Permutation_refl.
Qed.

Lemma order_by_perm l : Permutation l (Sqlite.order_by_created_at_desc l).
Proof.
  induction l as [|r l IH]; simpl; [constructor|].
  eapply perm_trans; [apply perm_skip, IH|apply insert_desc_perm].
Qed.

Lemma insert_desc_hd x r l :
  Sqlite.created_at_ge x r ->
  HdRel Sqlite.created_at_ge x l ->
  HdRel Sqlite.created_at_ge x (Sqlite.insert_desc r l).
Proof.
  intros Hxr Hhd. destruct l as [|y l]; simpl; [now constructor|].
  destruct (Sqlite.text_lt (created_at r) (created_at y)).
  - inversion Hhd; subst. now constructor.
  - now constructor.
Qed.

Lemma insert_desc_sorted r l :
  Sorted Sqlite.created_at_ge l ->
  Sorted Sqlite.created_at_ge (Sqlite.insert_desc r l).
Proof.
  induction 1 as [|x l Hs IH Hhd]; simpl.
  - repeat constructor.
  - destruct (Sqlite.text_lt (created_at r) (created_at x)) eqn:E.
    + constructor; [exact IH|].
      apply insert_desc_hd; [|exact Hhd].
      apply text_lt_flip, E.
    + constructor; [now constructor|]. constructor. exact E.
Qed.

Lemma order_by_sorted l :
  Sorted Sqlite.created_at_ge (Sqlite.order_by_created_at_desc l).
Proof.
  induction l as [|r l IH]; simpl; [constructor|].
  now apply insert_desc_sorted.
Qed.

Lemma order_by_ordered_desc l :
  Sqlite.ordered_desc l (Sqlite.order_by_created_at_desc l).
Proof. split; [apply order_by_perm|apply order_by_sorted]. Qed.

(** ** Keys of the edit page's select box *)

Lemma uint_no_blank d : has_blank (NilEmpty.string_of_uint d) = false.
Proof. induction d; simpl; auto. Qed.

Lemma str_no_blank n : has_blank (str n) = false.
Proof.
  unfold str, NilZero.string_of_int, NilZero.string_of_uint.
  destruct (Z.to_int n) as [d|d]; destruct d; simpl;
    auto using uint_no_blank.
Qed.

Lemma has_blank_app a b : has_blank (a ++ b) = has_blank a || has_blank b.
Proof.
  induction a as [|c a IH]; simpl; [reflexivity|].
  rewrite IH. now rewrite orb_assoc.
Qed.

Lemma last_word_app a b :
  has_blank b = false -> last_word (a ++ String " " b) = b.
Proof.
  intros Hb. induction a as [|c a IH]; simpl.
  - now rewrite Hb.
  - rewrite has_blank_app. simpl. rewrite orb_true_r. exact IH.
Qed.

Lemma append_assoc (a b c : string) : ((a ++ b) ++ c = a ++ (b ++ c))%string.
Proof. induction a as [|x a IH]; simpl; [reflexivity|]. now rewrite IH. Qed.

Lemma last_word_key r : last_word (option_key r) = (str (id r) ++ ")")%string.
Proof.
  unfold option_key.
  change (title r ++ " (ID: " ++ str (id r) ++ ")")%string
    with (title r ++ (" (ID:" ++ String " " (str (id r) ++ ")")))%string.
  rewrite <- append_assoc. apply last_word_app.
  rewrite has_blank_app, str_no_blank. reflexivity.
Qed.

Lemma length_append (a b : string) :
  String.length (a ++ b) = (String.length a + String.length b)%nat.
Proof. induction a as [|x a IH]; simpl; [reflexivity|]. now rewrite IH. Qed.

Lemma append_inj_r (a b c : string) : (a ++ c = b ++ c)%string -> a = b.
Proof.
  revert b. induction a as [|x a IH]; intros [|y b] H; simpl in H.
  - reflexivity.
  - exfalso. apply (f_equal String.length) in H. simpl in H.
    rewrite length_append in H. lia.
  - exfalso. apply (f_equal String.length) in H. simpl in H.
    rewrite length_append in H. lia.
  - injection H as -> H. f_equal. now apply IH.
Qed.

Lemma str_inj m n : str m = str n -> m = n.
Proof.
  unfold str. intros H. apply DecimalZ.to_int_inj.
  assert (Hnn : forall k, Z.to_int k <> Decimal.Pos Decimal.Nil /\
                          Z.to_int k <> Decimal.Neg Decimal.Nil).
  { intros [|p|p]; simpl; split; try discriminate;
      intros E; injection E as E;
      now apply DecimalPos.Unsigned.to_uint_nonnil in E. }
  destruct (Hnn m) as [Hm1 Hm2], (Hnn n) as [Hn1 Hn2].
  pose proof (NilZero.isi _ Hm1 Hm2) as Im.
  pose proof (NilZero.isi _ Hn1 Hn2) as In_.
  rewrite H in Im. congruence.
Qed.

Lemma option_key_inj x y : option_key x = option_key y -> id x = id y.
Proof.
  intros H. apply (f_equal last_word) in H. rewrite !last_word_key in H.
  apply append_inj_r in H. now apply str_inj.
Qed.

Lemma getitem_in df k v :
  getitem (record_options df) k = Some v ->
  exists x, In x df /\ option_key x = k /\ id x = v.
Proof.
  induction df as [|r df IH]; simpl; [discriminate|].
  destruct (getitem (record_options df) k) as [v'|] eqn:E.
  - intros H. injection H as <-. destruct (IH eq_refl) as (x & Hx & Hk & Hv).
    exists x. auto.
  - destruct (String.eqb_spec (option_key r) k) as [Hk|Hk]; [|discriminate].
    intros H. injection H as <-. exists r. auto.
Qed.

Lemma getitem_key df r :
  In r df -> getitem (record_options df) (option_key r) = Some (id r).
Proof.
  intros Hin.
  assert (Hsome : exists v, getitem (record_options df) (option_key r) = Some v).
  { induction df as [|x df IH]; simpl; [destruct Hin|].
    destruct (getitem (record_options df) (option_key r)) as [v'|] eqn:E.
    - now exists v'.
    - destruct Hin as [->|Hin].
      + rewrite String.eqb_refl. now exists (id r).
      + destruct (IH Hin) as [v Hv]. discriminate. }
  destruct Hsome as [v Hv]. rewrite Hv. f_equal.
  destruct (getitem_in _ _ _ Hv) as (x & _ & Hk & <-).
  now apply option_key_inj.
Qed.

(** ** Editing a record (C3) *)

Lemma id_unique l x y :
  NoDup (map id l) -> In x l -> In y l -> id x = id y -> x = y.
Proof.
  induction l as [|r l IH]; simpl; intros Hnd Hx Hy E; [destruct Hx|].
  inversion Hnd as [|? ? Hnotin Hnd']; subst.
  destruct Hx as [->|Hx], Hy as [->|Hy].
  - reflexivity.
  - exfalso. apply Hnotin. rewrite E. now apply in_map.
  - exfalso. apply Hnotin. rewrite <- E. now apply in_map.
  - now apply IH.
Qed.

Lemma filter_unique l r :
  NoDup (map id l) -> In r l -> filter (fun x => id x =? id r) l = [r].
Proof.
  induction l as [|x l IH]; simpl; intros Hnd Hin; [destruct Hin|].
  inversion Hnd as [|? ? Hnotin Hnd']; subst.
  destruct Hin as [->|Hin].
  - rewrite Z.eqb_refl. f_equal. now apply filter_absent.
  - destruct (Z.eqb_spec (id x) (id r)) as [E|E].
    + exfalso. apply Hnotin. rewrite E. now apply in_map.
    + now apply IH.
Qed.

Lemma index_some options x : In x options -> exists k, index options x = Some k.
Proof.
  induction options as [|o options IH]; simpl; intros Hin; [destruct Hin|].
  destruct (String.eqb_spec o x) as [E|E]; [now exists O|].
  destruct Hin as [Hin|Hin]; [contradiction|].
  destruct (IH Hin) as [k ->]. now exists (S k).
Qed.

Lemma index_in options x k : index options x = Some k -> In x options.
Proof.
  revert k. induction options as [|o options IH]; simpl; intros k H;
    [discriminate|].
  destruct (String.eqb_spec o x) as [E|E]; [now left|].
  destruct (index options x) as [k'|]; [|discriminate].
  right. now apply (IH k').
Qed.

Lemma initial_positions_returns r w :
  enumerated r -> exists p, initial_positions r w = Returns p w.
Proof.
  intros (Hc & Hp & Hs). unfold initial_positions.
  destruct (index_some _ _ Hc) as [c Ec], (index_some _ _ Hp) as [p Ep],
    (index_some _ _ Hs) as [s Es].
  exists (c, p, s). unfold bind, lift, ret. rewrite Ec, Ep, Es. reflexivity.
Qed.

Lemma initial_positions_enumerated r w p w' :
  initial_positions r w = Returns p w' -> enumerated r /\ w' = w.
Proof.
  unfold initial_positions, enumerated, bind, lift, ret, raise.
  destruct (index categories (category r)) as [c|] eqn:Ec; [|discriminate].
  destruct (index priorities (priority r)) as [q|] eqn:Ep; [|discriminate].
  destruct (index statuses (status r)) as [s|] eqn:Es; [|discriminate].
  intros H. injection H as _ <-.
  repeat split; eauto using index_in.
Qed.

Lemma not_option_key r : not_ (option_key r) = false.
Proof. unfold option_key. destruct (title r); reflexivity. Qed.

(** The edit page up to the point where the form is read, for the key of a
    record that is in the table. *)
Lemma edit_info_selected w t r ti ca pr st ta no sub can :
  db w = Some t ->
  NoDup (map id (rows t)) ->
  In r (rows t) ->
  edit_info (option_key r) ti ca pr st ta no sub can w =
  (initial_positions r ;;;
   if can then ret []
   else if sub then
     if not_ ti then ret [st_error "标题是必填项！"]
     else
       execute_update Sqlite.UPDATE
         (update_params (mkFields ti ca no pr st ta) (id r)) ;;;
       ret [st_success "信息更新成功！"]
   else ret [])
    (mkWorld (db w) (open_connections w) (sent Sqlite.SELECT_ORDERED [] w)
       (now w)).
Proof.
  intros Hdb Hnd Hin. unfold edit_info.
  rewrite (bind_returns _ _ _ _ _ (select_ordered_ok w t Hdb)).
  rewrite empty_order_by.
  destruct (rows t) as [|r0 l] eqn:Hrows; [destruct Hin|].
  cbn [empty]. rewrite not_option_key.
  rewrite <- Hrows in *.
  pose proof (order_by_perm (rows t)) as Hperm.
  assert (Hin' : In r (Sqlite.order_by_created_at_desc (rows t)))
    by (eapply Permutation_in; eassumption).
  assert (Hnd' : NoDup (map id (Sqlite.order_by_created_at_desc (rows t)))).
  { eapply Permutation_NoDup; [apply Permutation_map, Hperm|exact Hnd]. }
  rewrite (getitem_key _ _ Hin').
  unfold lift at 1. unfold bind at 1. unfold ret at 1.
  unfold iloc0. rewrite (filter_unique _ _ Hnd' Hin').
  cbn [hd_error]. unfold lift at 1. unfold bind at 1. unfold ret at 1.
  reflexivity.
Qed.

Lemma map_update_in l i (new : row) x :
  In x l -> id x <> i -> In x (map (fun y => if id y =? i then new else y) l).
Proof.
  intros Hin Hne. apply in_map_iff. exists x. split; [|exact Hin].
  destruct (Z.eqb_spec (id x) i); [contradiction|reflexivity].
Qed.

Lemma filter_updated l r (new : row) :
  NoDup (map id l) -> In r l -> id new = id r ->
  filter (fun x => id x =? id r)
    (map (fun y => if id y =? id r then new else y) l) = [new].
Proof.
  intros Hnd Hin Hid.
  induction l as [|x l IH]; simpl; [destruct Hin|].
  inversion Hnd as [|? ? Hnotin Hnd']; subst.
  destruct (Z.eqb_spec (id x) (id r)) as [E|E].
  - rewrite Hid, Z.eqb_refl. f_equal.
    assert (Hr : ~ In (id r) (map id l)) by now rewrite <- E.
    rewrite (update_absent_gen l (id r) new Hr).
    now apply filter_absent.
  - destruct (Z.eqb_spec (id x) (id r)); [contradiction|].
    destruct Hin as [->|Hin]; [contradiction|]. now apply IH.
Qed.

Lemma initial_positions_raises r w e w' :
  initial_positions r w = Raises e w' ->
  e = ValueError /\ w' = w /\ ~ enumerated r.
Proof.
  unfold initial_positions, enumerated, bind, lift, ret, raise.
  destruct (index categories (category r)) as [c|] eqn:Ec.
  - destruct (index priorities (priority r)) as [q|] eqn:Ep.
    + destruct (index statuses (status r)) as [s|] eqn:Es; [discriminate|].
      intros H. injection H as <- <-. repeat split.
      intros (_ & _ & Hs). apply index_some in Hs. destruct Hs. congruence.
    + intros H. injection H as <- <-. repeat split.
      intros (_ & Hp & _). apply index_some in Hp. destruct Hp. congruence.
  - intros H. injection H as <- <-. repeat split.
    intros (Hc & _ & _). apply index_some in Hc. destruct Hc. congruence.
Qed.

Lemma edit_info_submitted w t r ti ca pr st ta no :
  db w = Some t ->
  NoDup (map id (rows t)) ->
  In r (rows t) ->
  enumerated r ->
  ti <> "" ->
  edit_info (option_key r) ti ca pr st ta no true false w =
  Returns [st_success "信息更新成功！"]
    (mkWorld (Some (updated_table t (mkFields ti ca no pr st ta) (id r)))
       (open_connections w)
       (issued w ++
        [(Sqlite.SELECT_ORDERED, []);
         (Sqlite.UPDATE, update_params (mkFields ti ca no pr st ta) (id r))])%list
       (now w)).
Proof.
  intros Hdb Hnd Hin Henum Hti.
  rewrite (edit_info_selected w t r) by assumption.
  apply not_false_iff in Hti. rewrite Hti.
  destruct (initial_positions_returns r
              (mkWorld (db w) (open_connections w)
                 (sent Sqlite.SELECT_ORDERED [] w) (now w)) Henum) as [p Hp].
  rewrite (bind_returns _ _ _ _ _ Hp).
  erewrite bind_returns; [|apply (update_ok _ t); exact Hdb].
  unfold ret, sent. simpl. rewrite <- app_assoc. reflexivity.
Qed.

(** C3: for a record [r] of the table, selected in the edit page and
    submitted with a non-empty title: the update succeeds whenever the
    stored choice values are among the widgets' options, and when it
    succeeds the table is the old one with the row of that id, and no other,
    replaced in place by the row carrying the six submitted values under the
    old [id] and [created_at]; reading that id afterwards returns exactly this
    row. *)
Theorem edit_info_overwrites_mutable_fields :
  forall w t r ti ca pr st ta no,
    db w = Some t ->
    wf_table t ->
    In r (rows t) ->
    ti <> "" ->
    let new := mkRow (id r) ti ca no pr st ta (created_at r) in
    (enumerated r ->
     exists w',
       edit_info (option_key r) ti ca pr st ta no true false w =
         Returns [st_success "信息更新成功！"] w') /\
    (forall w',
        edit_info (option_key r) ti ca pr st ta no true false w =
          Returns [st_success "信息更新成功！"] w' ->
        exists t',
          db w' = Some t' /\
          rows t' = map (fun x => if id x =? id r then new else x) (rows t) /\
          (forall x, In x (rows t) -> id x = id r -> x = r) /\
          (forall x, In x (rows t) -> x <> r -> In x (rows t')) /\
          In new (rows t') /\
          exists w'',
            execute_query Sqlite.SELECT_BY_ID [VInt (id r)] w' =
              Returns [new] w'').
Proof.
  intros w t r ti ca pr st ta no Hdb [Hnd Hseq] Hin Hti new. split.
  - intros Henum. eexists.
    apply (edit_info_submitted w t r); assumption.
  - intros w' Hrun.
    assert (Henum : enumerated r).
    { rewrite (edit_info_selected w t r) in Hrun by assumption.
      unfold bind at 1 in Hrun.
      destruct (initial_positions r _) as [p w1|e w1] eqn:Hp; [|discriminate].
      now apply initial_positions_enumerated in Hp. }
    rewrite (edit_info_submitted w t r) in Hrun by assumption.
    injection Hrun as <-.
    assert (Hrows : rows (updated_table t (mkFields ti ca no pr st ta) (id r))
                    = map (fun x => if id x =? id r then new else x) (rows t)).
    { simpl. apply map_ext_in. intros x Hx.
      destruct (Z.eqb_spec (id x) (id r)) as [E|E]; [|reflexivity].
      now rewrite (id_unique (rows t) x r Hnd Hx Hin E). }
    exists (updated_table t (mkFields ti ca no pr st ta) (id r)).
    split; [reflexivity|]. split; [exact Hrows|].
    split; [intros x Hx E; now apply (id_unique (rows t))|].
    split.
    { intros x Hx Hne. rewrite Hrows. apply map_update_in; [exact Hx|].
      intros E. apply Hne. now apply (id_unique (rows t)). }
    split.
    { rewrite Hrows. apply in_map_iff. exists r. split; [|exact Hin].
      now rewrite Z.eqb_refl. }
    eexists.
    erewrite select_by_id_ok; [|reflexivity].
    rewrite Hrows. f_equal.
    apply (filter_updated (rows t) r new Hnd Hin). reflexivity.
Qed.

(** C3 on the one-record table: the record is edited and read back. *)
Lemma edit_info_overwrites_mutable_fields_witness :
  db one_row_world = Some (mkTable [award_row] 1) /\
  wf_table (mkTable [award_row] 1) /\
  In award_row (rows (mkTable [award_row] 1)) /\
  "Best Student" <> "" /\
  exists w' w'',
    edit_info (option_key award_row)
      "Best Student" "证书" "低" "已完成" "2025" "renamed" true false
      one_row_world = Returns [st_success "信息更新成功！"] w' /\
    execute_query Sqlite.SELECT_BY_ID [VInt 1] w' =
      Returns [mkRow 1 "Best Student" "证书" "renamed" "低" "已完成" "2025"
                 "2024-05-17 12:00:00"] w''.
Proof.
  assert (Hwf : wf_table (mkTable [award_row] 1)).
  { split; simpl.
    - constructor; [intros []|constructor].
    - constructor; [simpl; lia|constructor]. }
  assert (Hin : In award_row (rows (mkTable [award_row] 1))) by (now left).
  assert (Hti : "Best Student" <> "") by discriminate.
  split; [reflexivity|]. split; [exact Hwf|]. split; [exact Hin|].
  split; [exact Hti|].
  destruct (edit_info_overwrites_mutable_fields one_row_world
              (mkTable [award_row] 1) award_row
              "Best Student" "证书" "低" "已完成" "2025" "renamed"
              eq_refl Hwf Hin Hti) as [Hsucc Hpost].
  destruct Hsucc as [w' Hw'].
  { repeat split; simpl; auto 10. }
  exists w'.
  destruct (Hpost w' Hw') as (t' & _ & _ & _ & _ & _ & w'' & Hread).
  exists w''. split; [exact Hw'|exact Hread].
Defined.

(** ** Timestamps as text: the text order is the order of seconds *)

Lemma compare_refl (s : string) : String.compare s s = Eq.
Proof.
  induction s as [|c s IH]; simpl; [reflexivity|].
  unfold Ascii.compare. now rewrite N.compare_refl.
Qed.

Lemma compare_app (a1 a2 b1 b2 : string) :
  String.length a1 = String.length a2 ->
  String.compare (a1 ++ b1) (a2 ++ b2) =
  lex (String.compare a1 a2) (String.compare b1 b2).
Proof.
  revert a2. induction a1 as [|c a1 IH]; intros [|d a2] Hlen;
    try discriminate; simpl; [reflexivity|].
  destruct (Ascii.compare c d); [|reflexivity|reflexivity].
  apply IH. simpl in Hlen. congruence.
Qed.

Lemma compare_cons (c : ascii) (a b : string) :
  String.compare (String c a) (String c b) = String.compare a b.
Proof. simpl. unfold Ascii.compare. now rewrite N.compare_refl. Qed.

Lemma compare_single (c d : ascii) :
  String.compare (String c "") (String d "") = Ascii.compare c d.
Proof. cbn [String.compare]. now destruct (Ascii.compare c d). Qed.

Lemma length_pad w n : String.length (pad w n) = w.
Proof.
  revert n. induction w as [|w IH]; intros n; simpl; [reflexivity|].
  rewrite length_append, IH. simpl. apply Nat.add_1_r.
Qed.

Lemma compare_digit x y :
  0 <= x < 10 -> 0 <= y < 10 ->
  Ascii.compare (digit x) (digit y) = (x ?= y).
Proof.
  intros Hx Hy.
  assert (Ex : x = 0 \/ x = 1 \/ x = 2 \/ x = 3 \/ x = 4 \/ x = 5 \/ x = 6 \/
               x = 7 \/ x = 8 \/ x = 9) by lia.
  assert (Ey : y = 0 \/ y = 1 \/ y = 2 \/ y = 3 \/ y = 4 \/ y = 5 \/ y = 6 \/
               y = 7 \/ y = 8 \/ y = 9) by lia.
  repeat (destruct Ex as [->|Ex]); try subst x;
    repeat (destruct Ey as [->|Ey]); try subst y; reflexivity.
Qed.

Lemma lex_div_mod m n :
  lex (m / 10 ?= n / 10) (m mod 10 ?= n mod 10) = (m ?= n).
Proof.
  pose proof (Z.div_mod m 10 ltac:(lia)) as Hm.
  pose proof (Z.div_mod n 10 ltac:(lia)) as Hn.
  pose proof (Z.mod_pos_bound m 10 ltac:(lia)) as Bm.
  pose proof (Z.mod_pos_bound n 10 ltac:(lia)) as Bn.
  unfold lex.
  destruct (Z.compare_spec (m / 10) (n / 10)) as [E|E|E].
  - destruct (Z.compare_spec (m mod 10) (n mod 10)) as [F|F|F];
      symmetry; [apply Z.compare_eq_iff|apply Z.compare_lt_iff|
                 apply Z.compare_gt_iff]; lia.
  - symmetry. apply Z.compare_lt_iff. lia.
  - symmetry. apply Z.compare_gt_iff. lia.
Qed.

Lemma compare_pad w m n :
  0 <= m < 10 ^ Z.of_nat w -> 0 <= n < 10 ^ Z.of_nat w ->
  String.compare (pad w m) (pad w n) = (m ?= n).
Proof.
  revert m n. induction w as [|w IH]; intros m n Hm Hn.
  - simpl in *. assert (m = 0) by lia. assert (n = 0) by lia. now subst.
  - cbn [pad]. rewrite compare_app by now rewrite !length_pad.
    rewrite Nat2Z.inj_succ, Z.pow_succ_r in Hm, Hn by lia.
    rewrite IH.
    + rewrite compare_single.
      rewrite compare_digit by (apply Z.mod_pos_bound; lia).
      apply lex_div_mod.
    + split; [apply Z.div_pos; lia|apply Z.div_lt_upper_bound; lia].
    + split; [apply Z.div_pos; lia|apply Z.div_lt_upper_bound; lia].
Qed.

(** The text order of two timestamps is the chronological order of the
    seconds they were taken in. *)
Lemma compare_CURRENT_TIMESTAMP a b :
  valid_datetime a -> valid_datetime b ->
  String.compare (Sqlite.CURRENT_TIMESTAMP a) (Sqlite.CURRENT_TIMESTAMP b) =
  datetime_compare (truncate_second a) (truncate_second b).
Proof.
  intros (Hy & Hmo & Hd & Hh & Hmi & Hs & _) (Hy' & Hmo' & Hd' & Hh' & Hmi' & Hs' & _).
  unfold Sqlite.CURRENT_TIMESTAMP, datetime_compare, truncate_second.
  cbn [year month day hour minute second microsecond].
  repeat first
    [ rewrite compare_app by now rewrite !length_pad
    | rewrite compare_cons
    | progress change ("-" ++ ?x)%string with (String "-" x)
    | progress change (" " ++ ?x)%string with (String " " x)
    | progress change (":" ++ ?x)%string with (String ":" x) ].
  rewrite !compare_pad by (simpl; lia).
  rewrite Z.compare_refl.
  repeat lazymatch goal with
  | |- lex ?c _ = lex ?c _ => destruct c; cbn [lex]; try reflexivity
  end.
  unfold lex. now destruct (second a ?= second b).
Qed.

Lemma created_at_ge_second_ge a b ra rb :
  valid_datetime a -> valid_datetime b ->
  created_at ra = Sqlite.CURRENT_TIMESTAMP a ->
  created_at rb = Sqlite.CURRENT_TIMESTAMP b ->
  (Sqlite.created_at_ge ra rb <-> second_ge a b).
Proof.
  intros Ha Hb Ea Eb. unfold Sqlite.created_at_ge, Sqlite.text_lt, second_ge.
  rewrite Ea, Eb, compare_CURRENT_TIMESTAMP by assumption.
  destruct (datetime_compare _ _); split; congruence.
Qed.


(** ** What a page run does to the table *)

(** The two writing statements with their parameter tuples spelled out, as
    the pages pass them. *)
Lemma insert_ok_explicit w t ti ca no pr st ta :
  db w = Some t ->
  execute_update Sqlite.INSERT
    [VText ti; VText ca; VText no; VText pr; VText st; VText ta] w =
  Returns (Some (Sqlite.next_id t))
    (mkWorld (Some (inserted_table t (mkFields ti ca no pr st ta) (now w)))
       (open_connections w)
       (sent Sqlite.INSERT (insert_params (mkFields ti ca no pr st ta)) w)
       (now w)).
Proof. exact (insert_ok w t (mkFields ti ca no pr st ta)). Qed.

Lemma update_ok_explicit w t ti ca no pr st ta i :
  db w = Some t ->
  execute_update Sqlite.UPDATE
    [VText ti; VText ca; VText no; VText pr; VText st; VText ta; VInt i] w =
  Returns None
    (mkWorld (Some (updated_table t (mkFields ti ca no pr st ta) i))
       (open_connections w)
       (sent Sqlite.UPDATE (update_params (mkFields ti ca no pr st ta) i) w)
       (now w)).
Proof. exact (update_ok w t (mkFields ti ca no pr st ta) i). Qed.

Lemma bind_lift_some {A B : Type} e (a : A) (k : A -> M B) w :
  bind (lift e (Some a)) k w = k a w.
Proof. reflexivity. Qed.

(** One step through a page body: run the next statement on the existing
    table, or split on the next test. *)
Ltac page_step Hdb :=
  first
    [ erewrite bind_returns;
      [|first [ apply select_ordered_ok | apply select_by_id_ok
              | apply insert_ok_explicit | apply update_ok_explicit
              | apply delete_by_id_ok | apply delete_all_ok ]; exact Hdb]
    | match goal with
      | |- context [if ?b then _ else _] => destruct b
      end
    | progress unfold bind at 1
    | progress unfold ret, raise ].

Ltac table_stepped Hdb :=
  unfold steps_table; simpl; eexists; split; [first [exact Hdb|reflexivity]|];
  split; [|reflexivity]; constructor.

Lemma show_data_overview_step w t :
  db w = Some t ->
  steps_table w t (show_data_overview w).
Proof.
  intros Hdb. unfold show_data_overview.
  repeat page_step Hdb; table_stepped Hdb.
Qed.

Lemma add_info_step w t ti ca pr st ta no sub :
  db w = Some t ->
  steps_table w t (add_info ti ca pr st ta no sub w).
Proof.
  intros Hdb. unfold add_info.
  repeat page_step Hdb; table_stepped Hdb.
Qed.

Lemma edit_info_step w t sel ti ca pr st ta no sub can :
  db w = Some t ->
  steps_table w t (edit_info sel ti ca pr st ta no sub can w).
Proof.
  intros Hdb. unfold edit_info.
  rewrite (bind_returns _ _ _ _ _ (select_ordered_ok w t Hdb)).
  destruct (empty _); [table_stepped Hdb|].
  destruct (not_ sel); [table_stepped Hdb|].
  destruct (getitem _ sel) as [record_id|]; [|table_stepped Hdb].
  rewrite bind_lift_some.
  destruct (iloc0 record_id _) as [record_data|]; [|table_stepped Hdb].
  rewrite bind_lift_some.
  unfold bind at 1.
  destruct (initial_positions record_data _) as [p w1|e w1] eqn:Hp.
  - apply initial_positions_enumerated in Hp. destruct Hp as [_ ->].
    repeat page_step Hdb; table_stepped Hdb.
  - apply initial_positions_raises in Hp. destruct Hp as (_ & -> & _).
    table_stepped Hdb.
Qed.

Lemma delete_info_step w t opt i button confirm :
  db w = Some t ->
  steps_table w t (delete_info opt i button confirm w).
Proof.
  intros Hdb. unfold delete_info.
  repeat page_step Hdb; table_stepped Hdb.
Qed.

Lemma main_step w t p :
  db w = Some t ->
  steps_table w t (main p w).
Proof.
  intros Hdb. destruct p; simpl.
  - now apply show_data_overview_step.
  - now apply add_info_step.
  - now apply edit_info_step.
  - now apply delete_info_step.
Qed.

(** ** Invariants of the table *)

Lemma id_le_max_id r l : In r l -> id r <= Sqlite.max_id l.
Proof.
  induction l as [|x l IH]; simpl; intros H; [destruct H|].
  destruct H as [->|H]; [lia|]. specialize (IH H). lia.
Qed.

Lemma seq_lt_next_id t : seq t < Sqlite.next_id t.
Proof. unfold Sqlite.next_id. lia. Qed.

Lemma id_lt_next_id t r : In r (rows t) -> id r < Sqlite.next_id t.
Proof.
  intros H. apply id_le_max_id in H. unfold Sqlite.next_id. lia.
Qed.

Lemma next_id_absent t : ~ present (Sqlite.next_id t) t.
Proof.
  unfold present. intros H. apply in_map_iff in H.
  destruct H as (r & E & Hr). apply id_lt_next_id in Hr. lia.
Qed.

Lemma NoDup_map_filter (p : row -> bool) l :
  NoDup (map id l) -> NoDup (map id (filter p l)).
Proof.
  induction l as [|x l IH]; simpl; intros H; [constructor|].
  inversion H as [|? ? Hnotin Hnd]; subst.
  destruct (p x); simpl; [|now apply IH].
  constructor; [|now apply IH].
  intros Hin. apply Hnotin. apply in_map_iff in Hin.
  destruct Hin as (y & E & Hy). apply filter_In in Hy.
  apply in_map_iff. exists y. tauto.
Qed.

Lemma NoDup_snoc (l : list Z) (x : Z) :
  NoDup l -> ~ In x l -> NoDup (l ++ [x]).
Proof.
  intros Hnd Hx. induction Hnd as [|y l Hy Hnd IH]; simpl.
  - constructor; [intros []|constructor].
  - constructor.
    + rewrite in_app_iff. intros [H|[->|[]]]; [contradiction|].
      apply Hx. now left.
    + apply IH. intros H. apply Hx. now right.
Qed.

Lemma map_id_update (g : row -> row) l :
  (forall r, id (g r) = id r) -> map id (map g l) = map id l.
Proof.
  intros Hg. rewrite map_map. apply map_ext. exact Hg.
Qed.

Lemma id_update_branch f i r :
  id (if id r =? i then overwrite f r else r) = id r.
Proof. now destruct (id r =? i). Qed.

Lemma created_at_update_branch f i r :
  created_at (if id r =? i then overwrite f r else r) = created_at r.
Proof. now destruct (id r =? i). Qed.

(** What every step keeps: the table stays well formed, the high-water mark
    never drops, and a row of the new table either continues a row of the old
    one, with its id and [created_at], or was inserted by this step with a
    fresh id and the clock's timestamp. *)
Lemma table_step_keeps at_ t t' :
  wf_table t ->
  table_step at_ t t' ->
  wf_table t' /\ seq t <= seq t' /\
  forall r', In r' (rows t') ->
    (exists r, In r (rows t) /\ id r = id r' /\ created_at r = created_at r') \/
    (seq t < id r' /\ created_at r' = Sqlite.CURRENT_TIMESTAMP at_).
Proof.
  intros [Hnd Hle] Hstep. destruct Hstep as [|f|f i|i|].
  - split; [now split|]. split; [lia|]. intros r' Hr'. left. now exists r'.
  - split; [split|]; simpl.
    + rewrite map_app. simpl. apply NoDup_snoc; [exact Hnd|].
      apply next_id_absent.
    + apply Forall_app. split.
      * eapply Forall_impl; [|exact Hle]. simpl. intros r Hr.
        pose proof (seq_lt_next_id t). lia.
      * constructor; [simpl; lia|constructor].
    + split; [pose proof (seq_lt_next_id t); lia|].
      intros r' Hr'. apply in_app_iff in Hr'. destruct Hr' as [Hr'|[<-|[]]].
      * left. now exists r'.
      * right. simpl. split; [apply seq_lt_next_id|reflexivity].
  - split; [split|]; simpl.
    + rewrite map_id_update; [exact Hnd|]. intros r. apply id_update_branch.
    + apply Forall_map. eapply Forall_impl; [|exact Hle]. simpl.
      intros r Hr. now rewrite id_update_branch.
    + split; [lia|]. intros r' Hr'. apply in_map_iff in Hr'.
      destruct Hr' as (r & <- & Hr). left. exists r.
      now rewrite id_update_branch, created_at_update_branch.
  - split; [split|]; simpl.
    + now apply NoDup_map_filter.
    + apply Forall_forall. intros r Hr. apply filter_In in Hr.
      rewrite Forall_forall in Hle. now apply Hle.
    + split; [lia|]. intros r' Hr'. apply filter_In in Hr'.
      left. exists r'. tauto.
  - split; [split|]; simpl.
    + constructor.
    + constructor.
    + split; [lia|]. intros r' [].
Qed.

Lemma init_database_ok w t :
  db w = Some t ->
  init_database w =
  Returns tt (mkWorld (db w) (open_connections w)
                (sent Sqlite.CREATE_TABLE [] w) (now w)).
Proof.
  intros Hdb. unfold_m. simpl. rewrite Hdb. reflexivity.
Qed.

Lemma wf_empty_table : wf_table (mkTable [] 0).
Proof. split; simpl; constructor. Qed.

(** The first start-up creates the table; later ones leave it alone. *)
Lemma init_database_creates w :
  exists w', init_database w = Returns tt w' /\
             db w' = match db w with
                     | Some t => Some t
                     | None => Some (mkTable [] 0)
                     end.
Proof.
  unfold_m. simpl. destruct (db w); eexists; split; reflexivity.
Qed.

Lemma script_step w t p :
  db w = Some t -> steps_table w t (script p w).
Proof.
  intros Hdb. unfold script.
  rewrite (bind_returns _ _ _ _ _ (init_database_ok w t Hdb)).
  set (w1 := mkWorld (db w) (open_connections w)
               (sent Sqlite.CREATE_TABLE [] w) (now w)).
  destruct (main_step w1 t p Hdb) as (t' & Hdb' & Hstep & Hnow).
  unfold bind at 1.
  destruct (main p w1) as [shown w2|e w2]; simpl in Hdb', Hnow.
  - unfold add_download_section, bind.
    rewrite (select_all_ok w2 t' Hdb').
    exists t'. destruct (negb (empty (rows t'))); simpl; auto.
  - exists t'. simpl. auto.
Qed.

Lemma runs_continue l : forall w t,
  db w = Some t -> wf_table t ->
  exists t', db (runs l w) = Some t' /\ continues t t'.
Proof.
  induction l as [|[at_ p] l IH]; intros w t Hdb Hwf; simpl.
  - exists t. split; [exact Hdb|]. split; [exact Hwf|]. split; [lia|].
    intros r' Hr'. left. now exists r'.
  - destruct (script_step (tick at_ w) t p Hdb) as (t1 & Hdb1 & Hstep & _).
    destruct (table_step_keeps _ _ _ Hwf Hstep) as (Hwf1 & Hseq1 & Hrows1).
    destruct (IH _ t1 Hdb1 Hwf1) as (t' & Hdb' & Hwf' & Hseq' & Hrows').
    exists t'. split; [exact Hdb'|]. split; [exact Hwf'|]. split; [lia|].
    intros r' Hr'. destruct (Hrows' r' Hr') as [(r1 & Hr1 & Eid & Ecr)|Hlt].
    + destruct (Hrows1 r1 Hr1) as [(r & Hr & Eid' & Ecr')|[Hlt _]].
      * left. exists r. repeat split; congruence.
      * right. lia.
    + right. lia.
Qed.

(** ** Series of inserts *)

Lemma rows_insert_all subs : forall t,
  rows (insert_all subs t) = (rows t ++ inserted_rows subs t)%list.
Proof.
  induction subs as [|[at_ f] subs IH]; intros t; simpl.
  - now rewrite app_nil_r.
  - rewrite IH. simpl. now rewrite <- app_assoc.
Qed.

Lemma length_inserted_rows subs : forall t,
  List.length (inserted_rows subs t) = List.length subs.
Proof.
  induction subs as [|[at_ f] subs IH]; intros t; simpl; [reflexivity|].
  now rewrite IH.
Qed.

Lemma inserted_rows_fresh subs : forall t,
  Forall (fun r => seq t < id r /\ ~ present (id r) t) (inserted_rows subs t).
Proof.
  induction subs as [|[at_ f] subs IH]; intros t; simpl; constructor.
  - simpl. split; [apply seq_lt_next_id|apply next_id_absent].
  - eapply Forall_impl; [|apply IH]. simpl. intros r [Hlt Habs].
    pose proof (seq_lt_next_id t). split; [lia|].
    intros Hin. apply Habs. unfold present in *. simpl.
    rewrite map_app, in_app_iff. now left.
Qed.

Lemma inserted_rows_increasing subs : forall t,
  StronglySorted Z.lt (map id (inserted_rows subs t)).
Proof.
  induction subs as [|[at_ f] subs IH]; intros t; simpl; constructor.
  - apply IH.
  - apply Forall_map. eapply Forall_impl; [|apply inserted_rows_fresh].
    simpl. tauto.
Qed.

Lemma inserted_rows_values subs : forall t,
  Forall2 (fun r x => created_at r = Sqlite.CURRENT_TIMESTAMP (fst x) /\
                      has_fields (snd x) r)
    (inserted_rows subs t) subs.
Proof.
  induction subs as [|[at_ f] subs IH]; intros t; simpl; constructor.
  - simpl. unfold has_fields. simpl. tauto.
  - apply IH.
Qed.

Lemma each_insert subs : forall w t,
  db w = Some t ->
  exists w',
    each (map (fun x => (fst x, execute_update Sqlite.INSERT
                                  (insert_params (snd x)))) subs) w =
      Returns (map (fun r => Some (id r)) (inserted_rows subs t)) w' /\
    db w' = Some (insert_all subs t).
Proof.
  induction subs as [|[at_ f] subs IH]; intros w t Hdb; simpl.
  - eexists. split; [reflexivity|exact Hdb].
  - rewrite (insert_ok (tick at_ w) t f Hdb).
    cbn [now tick].
    match goal with
    | |- context [each _ ?w1] =>
        destruct (IH w1 _ eq_refl) as (w' & Hrun & Hdb')
    end.
    rewrite Hrun. eexists. split; [reflexivity|exact Hdb'].
Qed.

Lemma each_submit_add subs : forall w t,
  db w = Some t ->
  Forall (fun x => f_title (snd x) <> "") subs ->
  exists shown w',
    each (map (fun x => (fst x, submit_add (snd x))) subs) w =
      Returns shown w' /\
    db w' = Some (insert_all subs t).
Proof.
  induction subs as [|[at_ f] subs IH]; intros w t Hdb Hti; simpl.
  - do 2 eexists. split; [reflexivity|exact Hdb].
  - inversion Hti as [|? ? Hf Hrest]; subst. simpl in Hf.
    unfold submit_add at 1.
    rewrite (add_info_submitted (tick at_ w) t) by assumption.
    destruct f as [ti ca no pr st ta]. simpl.
    cbn [now tick].
    match goal with
    | |- context [each _ ?w1] =>
        destruct (IH w1 _ eq_refl Hrest) as (shown & w' & Hrun & Hdb')
    end.
    rewrite Hrun. do 2 eexists. split; [reflexivity|exact Hdb'].
Qed.

(** ** Listing (C4) *)

Lemma Forall2_perm {A B : Type} (R : A -> B -> Prop) l1 l1' :
  Permutation l1 l1' ->
  forall l2, Forall2 R l1 l2 ->
  exists l2', Permutation l2 l2' /\ Forall2 R l1' l2'.
Proof.
  induction 1 as [|x l1 l1' Hp IH|x y l1|l1 l1' l1'' Hp1 IH1 Hp2 IH2];
    intros l2 HF.
  - inversion HF; subst. exists []. split; constructor.
  - inversion HF as [|? y ? l2' Hxy HF']; subst.
    destruct (IH _ HF') as (m & Hm & HFm).
    exists (y :: m). split; [now constructor|now constructor].
  - inversion HF as [|? a ? l2' Hya HF']; subst.
    inversion HF' as [|? b ? l2'' Hxb HF'']; subst.
    exists (b :: a :: l2''). split; [apply perm_swap|].
    now repeat constructor.
  - destruct (IH1 _ HF) as (m & Hm & HFm).
    destruct (IH2 _ HFm) as (m' & Hm' & HFm').
    exists m'. split; [eapply perm_trans; eassumption|exact HFm'].
Qed.

Lemma sorted_by_second df : forall out,
  Forall2 inserted_as df out ->
  Forall (fun x => valid_datetime (fst x)) out ->
  Sorted Sqlite.created_at_ge df ->
  Sorted later_first out.
Proof.
  induction df as [|r df IH]; intros out HF Hv Hs;
    inversion HF as [|? x ? out' [Hr _] HF']; subst; [constructor|].
  inversion Hs as [|? ? Hs' Hhd]; subst.
  inversion Hv as [|? ? Hvx Hv']; subst.
  constructor; [now apply IH|].
  destruct HF' as [|r' y df' out'' [Hr' _] HF'']; [constructor|].
  inversion Hhd; subst. inversion Hv'; subst. constructor.
  unfold later_first.
  now apply (created_at_ge_second_ge (fst x) (fst y) r r').
Qed.

Lemma Permutation_Forall {A : Type} (P : A -> Prop) l l' :
  Permutation l l' -> Forall P l -> Forall P l'.
Proof.
  intros Hp HF. rewrite Forall_forall in *. intros x Hx.
  apply HF. eapply Permutation_in; [apply Permutation_sym|]; eassumption.
Qed.

(** C4: on every table, the listing query returns all the rows, ordered
    by [created_at], largest first, and the overview page shows them; a query
    that matches nothing returns an empty frame, not an error; and after a
    series of N successful submissions on an empty table the listing holds
    exactly those N records, later creation seconds first. *)
Theorem list_is_ordered_by_created_at_desc :
  forall w t,
    db w = Some t ->
    (exists df w',
        execute_query Sqlite.SELECT_ORDERED [] w = Returns df w' /\
        db w' = Some t /\
        Sqlite.ordered_desc (rows t) df /\
        List.length df = List.length (rows t) /\
        (rows t = [] -> df = []) /\
        (rows t <> [] ->
         exists metrics,
           show_data_overview w = Returns (st_dataframe df :: metrics) w')) /\
    (forall i, ~ present i t ->
        exists w',
          execute_query Sqlite.SELECT_BY_ID [VInt i] w = Returns [] w') /\
    (forall subs,
        rows t = [] ->
        Forall (fun x => f_title (snd x) <> "") subs ->
        Forall (fun x => valid_datetime (fst x)) subs ->
        exists shown w1 df w2,
          each (map (fun x => (fst x, submit_add (snd x))) subs) w =
            Returns shown w1 /\
          execute_query Sqlite.SELECT_ORDERED [] w1 = Returns df w2 /\
          List.length df = List.length subs /\
          exists out,
            Permutation subs out /\ Forall2 inserted_as df out /\
            Sorted later_first out).
Proof.
  intros w t Hdb. split; [|split].
  - exists (Sqlite.order_by_created_at_desc (rows t)). eexists.
    split; [apply (select_ordered_ok w t Hdb)|].
    split; [exact Hdb|]. split; [apply order_by_ordered_desc|].
    split; [symmetry; apply Permutation_length, order_by_perm|].
    split.
    + intros ->. reflexivity.
    + intros Hne. unfold show_data_overview.
      rewrite (bind_returns _ _ _ _ _ (select_ordered_ok w t Hdb)).
      rewrite empty_order_by.
      destruct (rows t); [congruence|]. cbn [empty]. eexists. reflexivity.
  - intros i Habs. eexists. rewrite (select_by_id_ok w t i Hdb).
    now rewrite filter_absent.
  - intros subs Hempty Hti Hvalid.
    destruct (each_submit_add subs w t Hdb Hti) as (shown & w1 & Hrun & Hdb1).
    exists shown, w1, (Sqlite.order_by_created_at_desc (inserted_rows subs t)).
    eexists. split; [exact Hrun|].
    assert (Hrows : rows (insert_all subs t) = inserted_rows subs t)
      by (now rewrite rows_insert_all, Hempty).
    split; [rewrite (select_ordered_ok w1 _ Hdb1), Hrows; reflexivity|].
    pose proof (order_by_perm (inserted_rows subs t)) as Hperm.
    split.
    { rewrite <- (Permutation_length Hperm). apply length_inserted_rows. }
    destruct (Forall2_perm inserted_as _ _ Hperm subs
                (inserted_rows_values subs t)) as (out & Hout & HF).
    exists out. split; [exact Hout|]. split; [exact HF|].
    apply (sorted_by_second _ out HF).
    + eapply Permutation_Forall; eassumption.
    + apply order_by_sorted.
Qed.

(** C4 on the freshly started world: two submissions, then the listing. *)
Lemma list_is_ordered_by_created_at_desc_witness :
  db started_world = Some (mkTable [] 0) /\
  exists shown w1 df w2,
    each (map (fun x => (fst x, submit_add (snd x)))
            [(noon, award); (one_pm, diploma)]) started_world =
      Returns shown w1 /\
    execute_query Sqlite.SELECT_ORDERED [] w1 = Returns df w2 /\
    List.length df = 2%nat.
Proof.
  split; [reflexivity|].
  destruct (list_is_ordered_by_created_at_desc started_world (mkTable [] 0)
              eq_refl) as (_ & _ & Hseries).
  destruct (Hseries [(noon, award); (one_pm, diploma)]) 
    as (shown & w1 & df & w2 & Hrun & Hlist & Hlen & _).
  - reflexivity.
  - repeat constructor; discriminate.
  - repeat constructor; simpl; lia.
  - exists shown, w1, df, w2. auto.
Defined.

(** ** Ids and creation timestamps (C5) *)

Lemma continues_created_at t t' r r' :
  wf_table t -> continues t t' ->
  In r (rows t) -> In r' (rows t') -> id r' = id r ->
  created_at r' = created_at r.
Proof.
  intros [Hnd Hle] (_ & _ & Hrows) Hr Hr' Eid.
  destruct (Hrows r' Hr') as [(r0 & Hr0 & Eid0 & Ecr)|Hlt].
  - rewrite <- Ecr. f_equal.
    apply (id_unique (rows t)); [assumption..|congruence].
  - rewrite Forall_forall in Hle. specialize (Hle r Hr). lia.
Qed.

(** C5: a series of INSERTs, each run by [execute_update] at its own clock
    reading, returns ids that increase strictly, all above the high-water
    mark and absent from the table before the series; each new row's
    [created_at] is the engine's timestamp of that clock reading, whatever
    values the caller bound. The add page runs exactly this INSERT. Over any
    later script runs a row found under the same id still has the same
    [created_at], and no later INSERT receives the id of a row that was ever
    in the table. *)
Theorem insert_ids_increase_and_created_at_is_kept :
  forall w t,
    db w = Some t ->
    wf_table t ->
    (forall subs,
        exists rs w' t',
          each (map (fun x => (fst x, execute_update Sqlite.INSERT
                                        (insert_params (snd x)))) subs) w =
            Returns (map (fun r => Some (id r)) rs) w' /\
          db w' = Some t' /\ rows t' = (rows t ++ rs)%list /\
          StronglySorted Z.lt (map id rs) /\
          Forall (fun r => seq t < id r /\ ~ present (id r) t) rs /\
          Forall2 inserted_as rs subs) /\
    (forall f, f_title f <> "" ->
        world_of (submit_add f w) =
        world_of (execute_update Sqlite.INSERT (insert_params f) w)) /\
    (forall l, exists t',
        db (runs l w) = Some t' /\
        (forall r r', In r (rows t) -> In r' (rows t') -> id r' = id r ->
                      created_at r' = created_at r) /\
        (forall r, In r (rows t) -> id r < Sqlite.next_id t')).
Proof.
  intros w t Hdb Hwf. split; [|split].
  - intros subs.
    destruct (each_insert subs w t Hdb) as (w' & Hrun & Hdb').
    exists (inserted_rows subs t), w', (insert_all subs t).
    split; [exact Hrun|]. split; [exact Hdb'|].
    split; [apply rows_insert_all|].
    split; [apply inserted_rows_increasing|].
    split; [apply inserted_rows_fresh|apply inserted_rows_values].
  - intros [ti ca no pr st ta] Hti. simpl in Hti. unfold submit_add.
    cbn [f_title f_category f_notes f_priority f_status f_tags].
    rewrite (add_info_submitted w t) by assumption.
    now rewrite (insert_ok w t _ Hdb).
  - intros l. destruct (runs_continue l w t Hdb Hwf) as (t' & Hdb' & Hcont).
    exists t'. split; [exact Hdb'|]. split.
    + intros r r'. now apply continues_created_at.
    + intros r Hr. destruct Hwf as [_ Hle], Hcont as (_ & Hseq & _).
      rewrite Forall_forall in Hle. specialize (Hle r Hr).
      pose proof (seq_lt_next_id t'). lia.
Qed.

Lemma wf_one_row : wf_table (mkTable [award_row] 1).
Proof.
  split; simpl.
  - constructor; [intros []|constructor].
  - constructor; [simpl; lia|constructor].
Qed.

(** C5 on the one-record table: two INSERTs in a row. *)
Lemma insert_ids_increase_and_created_at_is_kept_witness :
  db one_row_world = Some (mkTable [award_row] 1) /\
  wf_table (mkTable [award_row] 1) /\
  exists rs w' t',
    each (map (fun x => (fst x, execute_update Sqlite.INSERT
                                  (insert_params (snd x))))
            [(noon, diploma); (one_pm, award)]) one_row_world =
      Returns (map (fun r => Some (id r)) rs) w' /\
    db w' = Some t' /\ rows t' = ([award_row] ++ rs)%list /\
    StronglySorted Z.lt (map id rs).
Proof.
  split; [reflexivity|]. split; [exact wf_one_row|].
  destruct (insert_ids_increase_and_created_at_is_kept one_row_world
              (mkTable [award_row] 1) eq_refl wf_one_row) as (Hseries & _).
  destruct (Hseries [(noon, diploma); (one_pm, award)])
    as (rs & w' & t' & Hrun & Hdb' & Hrows & Hinc & _).
  exists rs, w', t'. auto.
Defined.

(** ** One row before another *)


(** ** Statements and parameters (C6) *)

Section OnlySends.

Variable texts : list string.

Lemma only_sends_ret {A : Type} (a : A) : only_sends texts (ret a).
Proof. intros w. exists []. simpl. now rewrite app_nil_r. Qed.

Lemma only_sends_raise {A : Type} (e : exn) : only_sends texts (@raise A e).
Proof. intros w. exists []. simpl. now rewrite app_nil_r. Qed.

Lemma only_sends_lift {A : Type} (e : exn) (o : option A) :
  only_sends texts (lift e o).
Proof. destruct o; [apply only_sends_ret|apply only_sends_raise]. Qed.

Lemma only_sends_bind {A B : Type} (m : M A) (k : A -> M B) :
  only_sends texts m -> (forall a, only_sends texts (k a)) ->
  only_sends texts (bind m k).
Proof.
  intros Hm Hk w. destruct (Hm w) as (new1 & E1 & F1). unfold bind.
  destruct (m w) as [a w1|e w1]; simpl in E1.
  - destruct (Hk a w1) as (new2 & E2 & F2).
    exists (new1 ++ new2)%list. rewrite E2, E1, app_assoc.
    split; [reflexivity|]. apply Forall_app. now split.
  - exists new1. now split.
Qed.

Lemma only_sends_if {A : Type} (b : bool) (m1 m2 : M A) :
  only_sends texts m1 -> only_sends texts m2 ->
  only_sends texts (if b then m1 else m2).
Proof. now destruct b. Qed.

Lemma only_sends_run query params :
  In query texts -> only_sends texts (run query params).
Proof.
  intros Hin w. exists [(query, params)]. split.
  - unfold run. destruct (Sqlite.prepare query) as [s|]; [|reflexivity].
    destruct (Sqlite.step s params (now w) (db w)); reflexivity.
  - now repeat constructor.
Qed.

Lemma only_sends_get_connection : only_sends texts get_connection.
Proof. intros w. exists []. simpl. now rewrite app_nil_r. Qed.

Lemma only_sends_close : only_sends texts close.
Proof. intros w. exists []. simpl. now rewrite app_nil_r. Qed.

Lemma only_sends_execute_query query params :
  In query texts -> only_sends texts (execute_query query params).
Proof.
  intros Hin. unfold execute_query, read_sql_query.
  repeat first [ apply only_sends_bind; [|intros ?]
               | apply only_sends_ret | apply only_sends_get_connection
               | apply only_sends_close | now apply only_sends_run ].
Qed.

Lemma only_sends_execute_update query params :
  In query texts -> only_sends texts (execute_update query params).
Proof.
  intros Hin. unfold execute_update, cursor_execute, commit.
  repeat first [ apply only_sends_bind; [|intros ?]
               | apply only_sends_ret | apply only_sends_get_connection
               | apply only_sends_close | now apply only_sends_run ].
Qed.

End OnlySends.

Create HintDb sends.
#[local] Hint Resolve only_sends_ret only_sends_raise only_sends_lift
  only_sends_bind only_sends_if only_sends_execute_query
  only_sends_execute_update : sends.

Lemma in_script_statements_decide q :
  existsb (String.eqb q) script_statements = true -> In q script_statements.
Proof.
  intros H. apply existsb_exists in H. destruct H as (x & Hx & E).
  apply String.eqb_eq in E. now subst.
Qed.

#[local] Hint Extern 1 (In _ script_statements) =>
  apply in_script_statements_decide; reflexivity : sends.

Ltac sends :=
  repeat first
    [ solve [auto with sends]
    | apply only_sends_if
    | apply only_sends_bind; [|intros ?] ].

Lemma main_only_sends p : only_sends script_statements (main p).
Proof.
  destruct p; simpl.
  - unfold show_data_overview. sends.
  - unfold add_info. sends.
  - unfold edit_info, initial_positions. sends.
  - unfold delete_info. sends.
Qed.

Lemma filter_present i l :
  In i (map id l) -> empty (filter (fun r => id r =? i) l) = false.
Proof.
  induction l as [|r l IH]; simpl; intros H; [destruct H|].
  destruct (Z.eqb_spec (id r) i) as [E|E]; [reflexivity|].
  destruct H as [H|H]; [contradiction|]. now apply IH.
Qed.

Lemma delete_info_present w t i confirm :
  db w = Some t ->
  present i t ->
  exists shown,
    delete_info "按ID删除单条记录" i true confirm w =
    Returns shown
      (mkWorld (Some (deleted_table t i)) (open_connections w)
         (issued w ++
          [(Sqlite.SELECT_ORDERED, []); (Sqlite.SELECT_BY_ID, [VInt i]);
           (Sqlite.DELETE_BY_ID, [VInt i])])%list
         (now w)).
Proof.
  intros Hdb Hin. unfold delete_info.
  rewrite (bind_returns _ _ _ _ _ (select_ordered_ok w t Hdb)).
  rewrite empty_order_by.
  destruct (rows t) as [|r0 l] eqn:Hrows.
  { unfold present in Hin. rewrite Hrows in Hin. destruct Hin. }
  cbn [empty]. rewrite <- Hrows.
  replace (String.eqb "按ID删除单条记录" "按ID删除单条记录") with true
    by reflexivity.
  cbv iota.
  erewrite bind_returns; [|apply (select_by_id_ok _ t); exact Hdb].
  rewrite (filter_present i (rows t) Hin).
  erewrite bind_returns; [|apply (delete_by_id_ok _ t); exact Hdb].
  eexists. unfold ret, sent. simpl. rewrite <- !app_assoc. reflexivity.
Qed.

(** C6: the text of every statement a page sends to the engine is one of
    the program's eight fixed texts, whatever the widgets returned; the
    values of the form travel as bound parameters only. The add page sends
    the INSERT text with the six values bound and the new row holds them
    unchanged; the edit page sends the UPDATE text with the six values and
    the id bound and the row then holds them unchanged; the delete page
    sends the DELETE text with the id bound. Nothing else is sent. *)
Theorem writes_bind_parameters :
  forall w t,
    db w = Some t ->
    NoDup (map id (rows t)) ->
    (forall p, exists new,
        issued (world_of (main p w)) = (issued w ++ new)%list /\
        Forall (fun s => In (fst s) script_statements) new) /\
    (forall ti ca pr st ta no, ti <> "" ->
        exists w' r,
          add_info ti ca pr st ta no true w =
            Returns [st_success "信息添加成功！"] w' /\
          issued w' =
            (issued w ++
             [(Sqlite.INSERT,
               [VText ti; VText ca; VText no; VText pr; VText st; VText ta])])%list /\
          db w' = Some (mkTable (rows t ++ [r])%list (id r)) /\
          mutable_fields r = (ti, ca, no, pr, st, ta)) /\
    (forall r ti ca pr st ta no,
        In r (rows t) -> enumerated r -> ti <> "" ->
        exists w' t',
          edit_info (option_key r) ti ca pr st ta no true false w =
            Returns [st_success "信息更新成功！"] w' /\
          issued w' =
            (issued w ++
             [(Sqlite.SELECT_ORDERED, []);
              (Sqlite.UPDATE,
               [VText ti; VText ca; VText no; VText pr; VText st; VText ta;
                VInt (id r)])])%list /\
          db w' = Some t' /\
          In (mkRow (id r) ti ca no pr st ta (created_at r)) (rows t') /\
          List.length (rows t') = List.length (rows t)) /\
    (forall i confirm, present i t ->
        exists shown w',
          delete_info "按ID删除单条记录" i true confirm w = Returns shown w' /\
          issued w' =
            (issued w ++
             [(Sqlite.SELECT_ORDERED, []); (Sqlite.SELECT_BY_ID, [VInt i]);
              (Sqlite.DELETE_BY_ID, [VInt i])])%list /\
          db w' = Some (deleted_table t i)).
Proof.
  intros w t Hdb Hnd. split; [|split; [|split]].
  - intros p. apply main_only_sends.
  - intros ti ca pr st ta no Hti.
    exists (mkWorld
              (Some (inserted_table t (mkFields ti ca no pr st ta) (now w)))
              (open_connections w)
              (sent Sqlite.INSERT
                 (insert_params (mkFields ti ca no pr st ta)) w) (now w)),
      (inserted_row t (mkFields ti ca no pr st ta) (now w)).
    split; [now apply add_info_submitted|]. repeat split.
  - intros r ti ca pr st ta no Hin Henum Hti. do 2 eexists.
    split; [now apply (edit_info_submitted w t r)|].
    split; [reflexivity|]. split; [reflexivity|]. split.
    + simpl. apply in_map_iff. exists r. split; [|exact Hin].
      now rewrite Z.eqb_refl.
    + simpl. apply length_map.
  - intros i confirm Hin.
    destruct (delete_info_present w t i confirm Hdb Hin) as [shown Hrun].
    do 2 eexists. split; [exact Hrun|]. split; reflexivity.
Qed.

(** C6 on the one-record table: a title that carries SQL text. *)
Lemma writes_bind_parameters_witness :
  db one_row_world = Some (mkTable [award_row] 1) /\
  NoDup (map id (rows (mkTable [award_row] 1))) /\
  exists w' r,
    add_info hostile_title "其他" "低" "待开始" "a,b" "it's" true
      one_row_world = Returns [st_success "信息添加成功！"] w' /\
    issued w' =
      [(Sqlite.INSERT,
        [VText hostile_title; VText "其他"; VText "it's"; VText "低";
         VText "待开始"; VText "a,b"])] /\
    db w' = Some (mkTable [award_row; r] (id r)) /\
    mutable_fields r = (hostile_title, "其他", "it's", "低", "待开始", "a,b").
Proof.
  assert (Hnd : NoDup (map id (rows (mkTable [award_row] 1)))).
  { simpl. constructor; [intros []|constructor]. }
  split; [reflexivity|]. split; [exact Hnd|].
  destruct (writes_bind_parameters one_row_world (mkTable [award_row] 1)
              eq_refl Hnd) as (_ & Hadd & _).
  destruct (Hadd hostile_title "其他" "低" "待开始" "a,b" "it's")
    as (w' & r & Hrun & Hsent & Hdb' & Hval).
  - discriminate.
  - exists w', r. auto.
Defined.

(** ** Values outside the option lists (C8) *)

(** C8 (as the specification words it, refuted): the add page's handler
    stores a record whose category is not among the options, and opening
    that record in the edit page raises [ValueError] while the form is
    pre-populated: this read path does not tolerate the record. *)
Lemma edit_info_raises_on_unlisted_category :
  ~ In (category unlisted_row) categories /\
  (exists w',
      add_info "Old entry" "杂项" "高" "进行中" "" "" true started_world =
        Returns [st_success "信息添加成功！"] w' /\
      db w' = db unlisted_world) /\
  exists w',
    edit_info (option_key unlisted_row) "Old entry" "其他" "高" "进行中" "" ""
      false false unlisted_world = Raises ValueError w'.
Proof.
  split; [|split].
  - simpl. intros H. repeat (destruct H as [H|H]; [discriminate|]).
    destruct H.
  - eexists. split; reflexivity.
  - eexists. reflexivity.
Qed.

Lemma edit_info_returns w t r ti ca pr st ta no sub can :
  db w = Some t ->
  NoDup (map id (rows t)) ->
  In r (rows t) ->
  enumerated r ->
  exists shown w',
    edit_info (option_key r) ti ca pr st ta no sub can w = Returns shown w'.
Proof.
  intros Hdb Hnd Hin Henum.
  rewrite (edit_info_selected w t r) by assumption.
  destruct (initial_positions_returns r
              (mkWorld (db w) (open_connections w)
                 (sent Sqlite.SELECT_ORDERED [] w) (now w)) Henum) as [p Hp].
  rewrite (bind_returns _ _ _ _ _ Hp).
  destruct can; [do 2 eexists; reflexivity|].
  destruct sub; [|do 2 eexists; reflexivity].
  destruct (not_ ti); [do 2 eexists; reflexivity|].
  erewrite bind_returns; [|apply (update_ok _ t); exact Hdb].
  do 2 eexists. reflexivity.
Qed.

Lemma edit_info_value_error w t r ti ca pr st ta no sub can :
  db w = Some t ->
  NoDup (map id (rows t)) ->
  In r (rows t) ->
  ~ enumerated r ->
  exists w',
    edit_info (option_key r) ti ca pr st ta no sub can w =
      Raises ValueError w' /\
    db w' = Some t.
Proof.
  intros Hdb Hnd Hin Hnot.
  rewrite (edit_info_selected w t r) by assumption.
  unfold bind at 1.
  destruct (initial_positions r _) as [p w1|e w1] eqn:Hp.
  - apply initial_positions_enumerated in Hp. tauto.
  - apply initial_positions_raises in Hp. destruct Hp as (-> & -> & _).
    eexists. split; [reflexivity|exact Hdb].
Qed.

(** C8 (as the code has it): only the title is checked, so the add page's
    handler stores any category, priority and status it is given; the
    listing and the CSV export return on every table; the edit page returns
    for a selected record whose three values are among the widgets' options
    and raises [ValueError], leaving the table as it is, for one with a
    value outside them. *)
Theorem unlisted_values_are_stored_and_break_only_the_edit_page :
  forall w t,
    db w = Some t ->
    NoDup (map id (rows t)) ->
    (forall ti ca pr st ta no, ti <> "" ->
        exists w' r,
          add_info ti ca pr st ta no true w =
            Returns [st_success "信息添加成功！"] w' /\
          db w' = Some (mkTable (rows t ++ [r])%list (id r)) /\
          category r = ca /\ priority r = pr /\ status r = st) /\
    (exists shown w', show_data_overview w = Returns shown w') /\
    (exists download w', add_download_section w = Returns download w') /\
    (forall r ti ca pr st ta no sub can,
        In r (rows t) ->
        (enumerated r ->
         exists shown w',
           edit_info (option_key r) ti ca pr st ta no sub can w =
             Returns shown w') /\
        (~ enumerated r ->
         exists w',
           edit_info (option_key r) ti ca pr st ta no sub can w =
             Raises ValueError w' /\
           db w' = Some t)).
Proof.
  intros w t Hdb Hnd. split; [|split; [|split]].
  - intros ti ca pr st ta no Hti.
    exists (mkWorld
              (Some (inserted_table t (mkFields ti ca no pr st ta) (now w)))
              (open_connections w)
              (sent Sqlite.INSERT
                 (insert_params (mkFields ti ca no pr st ta)) w) (now w)),
      (inserted_row t (mkFields ti ca no pr st ta) (now w)).
    split; [now apply add_info_submitted|]. repeat split.
  - unfold show_data_overview.
    rewrite (bind_returns _ _ _ _ _ (select_ordered_ok w t Hdb)).
    destruct (empty _); do 2 eexists; reflexivity.
  - unfold add_download_section.
    rewrite (bind_returns _ _ _ _ _ (select_all_ok w t Hdb)).
    destruct (negb _); do 2 eexists; reflexivity.
  - intros r ti ca pr st ta no sub can Hin. split; intros H.
    + now apply (edit_info_returns w t r).
    + now apply (edit_info_value_error w t r).
Qed.

(** C8 on a table whose only record has an unlisted category. *)
Lemma unlisted_values_are_stored_and_break_only_the_edit_page_witness :
  db unlisted_world = Some (mkTable [unlisted_row] 1) /\
  NoDup (map id (rows (mkTable [unlisted_row] 1))) /\
  (exists shown w', show_data_overview unlisted_world = Returns shown w') /\
  (exists download w',
      add_download_section unlisted_world = Returns download w') /\
  exists w',
    edit_info (option_key unlisted_row) "Old entry" "其他" "高" "进行中" "" ""
      true false unlisted_world = Raises ValueError w' /\
    db w' = Some (mkTable [unlisted_row] 1).
Proof.
  assert (Hnd : NoDup (map id (rows (mkTable [unlisted_row] 1)))).
  { simpl. constructor; [intros []|constructor]. }
  split; [reflexivity|]. split; [exact Hnd|].
  destruct (unlisted_values_are_stored_and_break_only_the_edit_page
              unlisted_world (mkTable [unlisted_row] 1) eq_refl Hnd)
    as (_ & Hlist & Hexport & Hedit).
  split; [exact Hlist|]. split; [exact Hexport|].
  apply (Hedit unlisted_row "Old entry" "其他" "高" "进行中" "" "" true false).
  - now left.
  - intros (Hc & _). simpl in Hc.
    repeat (destruct Hc as [Hc|Hc]; [discriminate|]). destruct Hc.
Defined.

(** ** CSV: what is written reads back (C9) *)

Module CsvFacts.
Import Csv.

Lemma append_nil_r (s : string) : s ++ "" = s.
Proof. induction s as [|c s IH]; simpl; [reflexivity|]. now rewrite IH. Qed.

Lemma snoc_append (acc : string) (c : ascii) (s : string) :
  snoc acc c ++ s = acc ++ String c s.
Proof. unfold snoc. now rewrite append_assoc. Qed.

Lemma special_false c :
  special c = false ->
  Ascii.eqb c delimiter = false /\ Ascii.eqb c quotechar = false /\
  Ascii.eqb c LF = false.
Proof.
  unfold special. intros H.
  repeat (apply orb_false_iff in H; destruct H as [H ?]). auto.
Qed.

Lemma bare_CR_plain s :
  bare_CR s = false -> has_special s = false -> has_CR s = false.
Proof. unfold bare_CR. intros H Hs. now rewrite Hs in H. Qed.

Lemma parse_plain s : forall acc cells records rest term,
  has_special s = false ->
  has_CR s = false ->
  terminator term ->
  parse InCell acc cells records (s ++ String term rest) =
  after term cells (acc ++ s) records rest.
Proof.
  induction s as [|c s IH]; intros acc cells records rest term Hs Hr Hterm.
  - rewrite append_nil_r. destruct Hterm as [->| ->]; reflexivity.
  - simpl in Hs. apply orb_false_iff in Hs. destruct Hs as [Hc Hs].
    simpl in Hr. apply orb_false_iff in Hr. destruct Hr as [Hcr Hr].
    apply special_false in Hc. destruct Hc as (Hd & Hq & Hlf).
    cbn [append parse]. rewrite Hlf, Hcr, Hd. cbn [orb].
    rewrite IH by assumption. now rewrite snoc_append.
Qed.

Lemma parse_quoted s : forall acc cells records rest term,
  terminator term ->
  parse InQuotedCell acc cells records
    (double_quotes s ++ String quotechar (String term rest)) =
  after term cells (acc ++ s) records rest.
Proof.
  induction s as [|c s IH]; intros acc cells records rest term Hterm.
  - rewrite append_nil_r. destruct Hterm as [->| ->]; reflexivity.
  - cbn [double_quotes]. destruct (Ascii.eqb c quotechar) eqn:Hq.
    + apply Ascii.eqb_eq in Hq. subst c.
      cbn [append parse]. rewrite Ascii.eqb_refl.
      rewrite IH by assumption. now rewrite snoc_append.
    + cbn [append parse]. rewrite Hq.
      rewrite IH by assumption. now rewrite snoc_append.
Qed.

Lemma has_special_head c s :
  has_special (String c s) = false -> special c = false.
Proof. simpl. intros H. now apply orb_false_iff in H. Qed.

Lemma parse_cell s : forall cells records rest term,
  bare_CR s = false ->
  terminator term ->
  parse StartCell "" cells records (write_cell s ++ String term rest) =
  after term cells s records rest.
Proof.
  intros cells records rest term Hsafe Hterm. unfold write_cell.
  destruct (has_special s) eqn:Hs.
  - cbn [append]. rewrite append_assoc. cbn [append].
    change (parse StartCell "" cells records
              (String quotechar
                 (double_quotes s ++ String quotechar (String term rest))))
      with (parse InQuotedCell "" cells records
              (double_quotes s ++ String quotechar (String term rest))).
    now rewrite parse_quoted.
  - destruct s as [|c s].
    + destruct Hterm as [->| ->]; reflexivity.
    + pose proof (has_special_head _ _ Hs) as Hc.
      apply special_false in Hc. destruct Hc as (Hd & Hq & Hlf).
      pose proof (bare_CR_plain _ Hsafe Hs) as Hr.
      simpl in Hr. apply orb_false_iff in Hr. destruct Hr as [Hcr Hr].
      cbn [append parse]. rewrite Hlf, Hcr, Hq, Hd. cbn [orb].
      simpl in Hs. apply orb_false_iff in Hs. destruct Hs as [_ Hs].
      now rewrite parse_plain.
Qed.

Lemma parse_first_cell s : forall records rest term,
  bare_CR s = false ->
  terminator term ->
  (s = "" -> term = delimiter) ->
  parse StartRecord "" [] records (write_cell s ++ String term rest) =
  after term [] s records rest.
Proof.
  intros records rest term Hsafe Hterm Hblank. unfold write_cell.
  destruct (has_special s) eqn:Hs.
  - cbn [append]. rewrite append_assoc. cbn [append].
    change (parse StartRecord "" [] records
              (String quotechar
                 (double_quotes s ++ String quotechar (String term rest))))
      with (parse InQuotedCell "" [] records
              (double_quotes s ++ String quotechar (String term rest))).
    now rewrite parse_quoted.
  - destruct s as [|c s].
    + rewrite (Hblank eq_refl). reflexivity.
    + pose proof (has_special_head _ _ Hs) as Hc.
      apply special_false in Hc. destruct Hc as (Hd & Hq & Hlf).
      pose proof (bare_CR_plain _ Hsafe Hs) as Hr.
      simpl in Hr. apply orb_false_iff in Hr. destruct Hr as [Hcr Hr].
      cbn [append parse]. rewrite Hlf, Hcr, Hq, Hd. cbn [orb].
      simpl in Hs. apply orb_false_iff in Hs. destruct Hs as [_ Hs].
      now rewrite parse_plain.
Qed.

Lemma parse_cells cs : forall c cells records rest,
  Forall (fun x => bare_CR x = false) (c :: cs) ->
  parse StartCell "" cells records (join_cells (c :: cs) ++ String LF rest) =
  parse StartRecord "" [] (records ++ [(cells ++ c :: cs)%list])%list rest.
Proof.
  induction cs as [|c' cs IH]; intros c cells records rest Hsafe;
    inversion Hsafe as [|? ? Hc Hcs]; subst.
  - cbn [join_cells]. rewrite parse_cell; [reflexivity|exact Hc|now right].
  - change (join_cells (c :: c' :: cs))
      with (write_cell c ++ String delimiter (join_cells (c' :: cs))).
    rewrite append_assoc. cbn [append].
    rewrite parse_cell; [|exact Hc|now left].
    unfold after. rewrite Ascii.eqb_refl. rewrite IH by exact Hcs.
    now rewrite <- app_assoc.
Qed.

Lemma parse_line cells : forall records rest,
  written_line cells ->
  Forall (fun x => bare_CR x = false) cells ->
  parse StartRecord "" [] records (write_line cells ++ rest) =
  parse StartRecord "" [] (records ++ [cells])%list rest.
Proof.
  intros records rest Hw Hsafe. unfold write_line. rewrite append_assoc.
  cbn [append].
  destruct cells as [|c [|c' cs]]; [destruct Hw| |];
    inversion Hsafe as [|? ? Hc Hcs]; subst.
  - cbn [join_cells]. simpl in Hw.
    rewrite parse_first_cell; [reflexivity|exact Hc|now right|contradiction].
  - change (join_cells (c :: c' :: cs))
      with (write_cell c ++ String delimiter (join_cells (c' :: cs))).
    rewrite append_assoc. cbn [append].
    rewrite parse_first_cell; [|exact Hc|now left|reflexivity].
    unfold after. rewrite Ascii.eqb_refl. cbn [app].
    now apply parse_cells.
Qed.

Lemma concat_cons (x : string) (xs : list string) :
  String.concat "" (x :: xs) = x ++ String.concat "" xs.
Proof.
  destruct xs as [|y xs]; simpl; [now rewrite append_nil_r|reflexivity].
Qed.

Lemma parse_lines ls : forall records,
  Forall written_line ls ->
  Forall (Forall (fun x => bare_CR x = false)) ls ->
  parse StartRecord "" [] records (String.concat "" (map write_line ls)) =
  (records ++ ls)%list.
Proof.
  induction ls as [|l ls IH]; intros records Hw Hsafe.
  - simpl. now rewrite app_nil_r.
  - inversion Hw as [|? ? Hl Hls]; subst.
    inversion Hsafe as [|? ? Hsl Hsls]; subst.
    cbn [map]. rewrite concat_cons, parse_line by assumption.
    rewrite IH by assumption. now rewrite <- app_assoc.
Qed.

Lemma uint_no_CR d : has_CR (NilEmpty.string_of_uint d) = false.
Proof. induction d; simpl; auto. Qed.

Lemma str_no_CR n : has_CR (str n) = false.
Proof.
  unfold str, NilZero.string_of_int, NilZero.string_of_uint.
  destruct (Z.to_int n) as [d|d]; destruct d; simpl; auto using uint_no_CR.
Qed.

Lemma cells_of_safe r :
  csv_safe r -> Forall (fun x => bare_CR x = false) (cells_of r).
Proof.
  intros Hr. constructor; [|exact Hr].
  unfold bare_CR. rewrite str_no_CR. apply andb_false_r.
Qed.

Lemma read_csv_to_csv (df : DataFrame) :
  Forall csv_safe df ->
  read_csv (to_csv df) = columns :: map cells_of df.
Proof.
  intros Hsafe. unfold read_csv, to_csv.
  rewrite parse_line; [|exact I|repeat constructor].
  rewrite <- map_map. rewrite parse_lines; [reflexivity| |].
  - apply Forall_map. apply Forall_forall. intros r _. exact I.
  - apply Forall_map. eapply Forall_impl; [|exact Hsafe].
    apply cells_of_safe.
Qed.

End CsvFacts.

Lemma mutable_cells_of r :
  mutable_cells (Csv.cells_of r) = Some (mutable_fields r).
Proof. reflexivity. Qed.

(** C9 (as the specification words it, refuted): the table holds one record
    whose notes are two words with a carriage return between them. The
    export writes that cell unquoted, the text read back breaks the record in
    two at the carriage return, and neither piece gives a tuple: the tuple of
    the table's record is not among those read back. *)
Lemma csv_export_breaks_at_a_bare_carriage_return :
  (exists w',
      add_download_section cr_world =
        Returns (Some (Csv.to_csv [cr_row])) w') /\
  Csv.write_cell (notes cr_row) = notes cr_row /\
  map mutable_cells (tl (Csv.read_csv (Csv.to_csv [cr_row]))) =
    [None; None] /\
  ~ In (Some (mutable_fields cr_row))
      (map mutable_cells (tl (Csv.read_csv (Csv.to_csv [cr_row])))).
Proof.
  split; [eexists; reflexivity|]. split; [reflexivity|].
  split; [reflexivity|].
  intros H. vm_compute in H. destruct H as [H|[H|[]]]; discriminate H.
Qed.

(** C9 (as the code has it): the download section hands out, for a table
    that has rows, the CSV text of all of them (for an empty table it offers
    nothing). For a table in which no text cell is written with a bare
    carriage return (every cell that holds one also holds a comma, a quote
    or a line feed, and so is quoted), that text reads back as the header
    line of column names followed by one record per row with the row's
    cells, so the tuples of the six mutable columns read from it are those
    of the table, row for row, and the two hold the same set of tuples. *)
Theorem csv_export_reads_back :
  forall w t,
    db w = Some t ->
    Forall csv_safe (rows t) ->
    (exists w',
        add_download_section w =
          Returns (if empty (rows t) then None
                   else Some (Csv.to_csv (rows t))) w' /\
        db w' = Some t) /\
    Csv.read_csv (Csv.to_csv (rows t)) =
      Csv.columns :: map Csv.cells_of (rows t) /\
    map mutable_cells (tl (Csv.read_csv (Csv.to_csv (rows t)))) =
      map (fun r => Some (mutable_fields r)) (rows t) /\
    (forall tuple,
        In (Some tuple)
           (map mutable_cells (tl (Csv.read_csv (Csv.to_csv (rows t))))) <->
        In tuple (map mutable_fields (rows t))).
Proof.
  intros w t Hdb Hsafe.
  assert (Hread : map mutable_cells
                    (tl (Csv.read_csv (Csv.to_csv (rows t)))) =
                  map (fun r => Some (mutable_fields r)) (rows t)).
  { rewrite CsvFacts.read_csv_to_csv by exact Hsafe. cbn [tl].
    rewrite map_map. apply map_ext. intros r. apply mutable_cells_of. }
  split; [|split; [|split]].
  - unfold add_download_section.
    rewrite (bind_returns _ _ _ _ _ (select_all_ok w t Hdb)).
    eexists. destruct (empty (rows t)); (split; [reflexivity|exact Hdb]).
  - now apply CsvFacts.read_csv_to_csv.
  - exact Hread.
  - intros tuple. rewrite Hread, !in_map_iff. split.
    + intros (r & E & Hr). injection E as <-. now exists r.
    + intros (r & <- & Hr). now exists r.
Qed.

(** C9 on a table with a record whose cells need quoting, one of them for
    a line feed. *)
Lemma csv_export_reads_back_witness :
  db two_row_world = Some (mkTable [award_row; quoted_row] 2) /\
  Forall csv_safe (rows (mkTable [award_row; quoted_row] 2)) /\
  exists csv w',
    add_download_section two_row_world = Returns (Some csv) w' /\
    map mutable_cells (tl (Csv.read_csv csv)) =
      [Some (mutable_fields award_row); Some (mutable_fields quoted_row)].
Proof.
  assert (Hsafe : Forall csv_safe (rows (mkTable [award_row; quoted_row] 2))).
  { repeat constructor. }
  split; [reflexivity|]. split; [exact Hsafe|].
  destruct (csv_export_reads_back two_row_world
              (mkTable [award_row; quoted_row] 2) eq_refl Hsafe)
    as ((w' & Hrun & _) & _ & Hread & _).
  exists (Csv.to_csv [award_row; quoted_row]), w'.
  split; [exact Hrun|exact Hread].
Defined.

(** ** Updating and deleting an id that is absent (C2) *)

(** The edit page never binds an id it has not just read: whatever the
    widgets return, the table it leaves is the old one, or the old one
    updated at the id of one of its rows. *)
Lemma edit_info_binds_listed_id w t sel ti ca pr st ta no sub can :
  db w = Some t ->
  exists t',
    db (world_of (edit_info sel ti ca pr st ta no sub can w)) = Some t' /\
    (t' = t \/
     exists record_id,
       present record_id t /\
       t' = updated_table t (mkFields ti ca no pr st ta) record_id).
Proof.
  intros Hdb. unfold edit_info.
  rewrite (bind_returns _ _ _ _ _ (select_ordered_ok w t Hdb)).
  destruct (empty _); [exists t; simpl; auto|].
  destruct (not_ sel); [exists t; simpl; auto|].
  destruct (getitem _ sel) as [record_id|] eqn:Hget; [|exists t; simpl; auto].
  rewrite bind_lift_some.
  destruct (iloc0 record_id _) as [record_data|]; [|exists t; simpl; auto].
  rewrite bind_lift_some.
  unfold bind at 1.
  destruct (initial_positions record_data _) as [p w1|e w1] eqn:Hp.
  - apply initial_positions_enumerated in Hp. destruct Hp as [_ ->].
    destruct can; [exists t; simpl; auto|].
    destruct sub; [|exists t; simpl; auto].
    destruct (not_ ti); [exists t; simpl; auto|].
    erewrite bind_returns; [|apply (update_ok_explicit _ t); exact Hdb].
    eexists. split; [reflexivity|]. right. exists record_id.
    split; [|reflexivity].
    apply getitem_in in Hget. destruct Hget as (x & Hx & _ & <-).
    unfold present. apply in_map.
    eapply Permutation_in; [apply Permutation_sym, order_by_perm|exact Hx].
  - apply initial_positions_raises in Hp. destruct Hp as (_ & -> & _).
    exists t. simpl. auto.
Qed.

(** C2 (as the specification words it, refuted): the table holds the
    record 1 only; the UPDATE bound to id 7 changes nothing and
    [execute_update] returns normally: nothing raises or reports that the id
    was not found. And on an empty table the delete page answers a request
    for id 7 with the no-data notice, not with the not-found error. *)
Lemma update_of_absent_id_returns_normally :
  ~ present 7 (mkTable [award_row] 1) /\
  (exists w',
      execute_update Sqlite.UPDATE (update_params award 7) one_row_world =
        Returns None w' /\
      db w' = db one_row_world) /\
  exists w',
    delete_info "按ID删除单条记录" 7 true false started_world =
      Returns [st_info "暂无数据可删除"] w' /\
    db w' = db started_world.
Proof.
  split; [|split].
  - unfold present. simpl. intros [H|[]]. discriminate.
  - eexists. split; reflexivity.
  - eexists. split; reflexivity.
Qed.

(** C2 (as the code has it): for an id that is not in the table, the delete
    page refuses the deletion after checking beforehand, with the not-found
    error (or, the table being empty, with the no-data notice), and the
    UPDATE statement bound to that id affects no row and returns normally;
    either way the table is unchanged. The edit page, for its part, only
    ever updates at the id of a row that is in the table. *)
Theorem absent_id_changes_nothing :
  forall w t i,
    db w = Some t ->
    ~ present i t ->
    (forall confirm,
        exists shown w',
          delete_info "按ID删除单条记录" i true confirm w = Returns shown w' /\
          db w' = Some t /\
          (rows t <> [] -> In (NotFoundError i) shown) /\
          (rows t = [] -> shown = [st_info "暂无数据可删除"])) /\
    (forall f,
        exists w',
          execute_update Sqlite.UPDATE (update_params f i) w =
            Returns None w' /\
          db w' = Some t) /\
    (forall sel ti ca pr st ta no sub can,
        exists t',
          db (world_of (edit_info sel ti ca pr st ta no sub can w)) =
            Some t' /\
          (t' = t \/
           exists record_id,
             present record_id t /\
             t' = updated_table t (mkFields ti ca no pr st ta) record_id)).
Proof.
  intros w t i Hdb Habs. split; [|split].
  - intros confirm. unfold delete_info.
    rewrite (bind_returns _ _ _ _ _ (select_ordered_ok w t Hdb)).
    rewrite empty_order_by.
    destruct (rows t) as [|r0 l] eqn:Hrows.
    + simpl. do 2 eexists. split; [reflexivity|]. simpl.
      split; [exact Hdb|]. split; [congruence|reflexivity].
    + cbn [empty].
      replace (String.eqb "按ID删除单条记录" "按ID删除单条记录") with true
        by reflexivity.
      cbv iota.
      erewrite bind_returns; [|apply (select_by_id_ok _ t); exact Hdb].
      rewrite filter_absent by exact Habs.
      cbn [empty]. do 2 eexists. split; [reflexivity|]. simpl.
      split; [exact Hdb|]. split; [|congruence].
      intros _. right. left. reflexivity.
  - intros f. eexists. split; [apply (update_ok w t); exact Hdb|].
    simpl. now rewrite updated_table_absent.
  - intros sel ti ca pr st ta no sub can.
    now apply edit_info_binds_listed_id.
Qed.

(** C2 on the one-record table, for the absent id 7. *)
Lemma absent_id_changes_nothing_witness :
  db one_row_world = Some (mkTable [award_row] 1) /\
  ~ present 7 (mkTable [award_row] 1) /\
  (forall confirm,
      exists shown w',
        delete_info "按ID删除单条记录" 7 true confirm one_row_world =
          Returns shown w' /\
        db w' = Some (mkTable [award_row] 1) /\
        (rows (mkTable [award_row] 1) <> [] -> In (NotFoundError 7) shown) /\
        (rows (mkTable [award_row] 1) = [] ->
         shown = [st_info "暂无数据可删除"])) /\
  (forall f,
      exists w',
        execute_update Sqlite.UPDATE (update_params f 7) one_row_world =
          Returns None w' /\
        db w' = Some (mkTable [award_row] 1)).
Proof.
  assert (H : ~ present 7 (mkTable [award_row] 1)).
  { unfold present. simpl. intros [H|[]]. discriminate. }
  split; [reflexivity|]. split; [exact H|].
  destruct (absent_id_changes_nothing one_row_world (mkTable [award_row] 1) 7
              eq_refl H) as (Hdelete & Hupdate & _).
  split; [exact Hdelete|exact Hupdate].
Defined.

(** ** Start-up *)

(** X1: [init_database] always returns, with the connection it opened
    closed. A missing table is created empty; an existing table is left
    exactly as it is; so a second start-up changes nothing in the database
    that the first one left. *)
Theorem init_database_is_idempotent :
  forall w,
    exists w1 w2,
      init_database w = Returns tt w1 /\
      init_database w1 = Returns tt w2 /\
      open_connections w1 = open_connections w /\
      (db w = None -> db w1 = Some (mkTable [] 0)) /\
      (forall t, db w = Some t -> db w1 = Some t) /\
      db w2 = db w1.
Proof.
  intros w. unfold_m. simpl.
  destruct (db w) as [t|] eqn:Hdb; simpl;
    do 2 eexists; (split; [reflexivity|]); simpl;
    (split; [reflexivity|]); repeat split; congruence.
Qed.

(** ** Deleting *)

Lemma length_filter_split {A : Type} (p : A -> bool) (l : list A) :
  (List.length (filter p l) +
   List.length (filter (fun x => negb (p x)) l))%nat = List.length l.
Proof.
  induction l as [|x l IH]; simpl; [reflexivity|].
  destruct (p x); simpl; lia.
Qed.

Lemma filter_others_absent i l :
  ~ In i (map id l) -> filter (fun r => negb (id r =? i)) l = l.
Proof.
  induction l as [|r l IH]; simpl; intros H; [reflexivity|].
  destruct (Z.eqb_spec (id r) i) as [E|E]; simpl.
  - exfalso. apply H. now left.
  - f_equal. apply IH. intros Hin. apply H. now right.
Qed.

(** X2: deleting the single record [r] of a table with unique ids succeeds
    and removes exactly that row: the rows left are the other rows, in their
    old order, one fewer than before; the high-water mark stays; looking the
    id up afterwards finds nothing. *)
Theorem delete_info_removes_exactly_that_row :
  forall w t r confirm,
    db w = Some t ->
    NoDup (map id (rows t)) ->
    In r (rows t) ->
    exists shown w' t',
      delete_info "按ID删除单条记录" (id r) true confirm w =
        Returns shown w' /\
      In (st_success ("ID为 " ++ str (id r) ++ " 的记录已删除！")) shown /\
      db w' = Some t' /\
      rows t' = filter (fun x => negb (id x =? id r)) (rows t) /\
      (forall x, In x (rows t') <-> In x (rows t) /\ x <> r) /\
      S (List.length (rows t')) = List.length (rows t) /\
      seq t' = seq t /\
      exists w'',
        execute_query Sqlite.SELECT_BY_ID [VInt (id r)] w' = Returns [] w''.
Proof.
  intros w t r confirm Hdb Hnd Hin.
  assert (Hpres : present (id r) t) by (now apply in_map).
  unfold delete_info.
  rewrite (bind_returns _ _ _ _ _ (select_ordered_ok w t Hdb)).
  rewrite empty_order_by.
  destruct (rows t) as [|r0 l] eqn:Hrows; [destruct Hin|].
  cbn [empty]. rewrite <- Hrows in *.
  replace (String.eqb "按ID删除单条记录" "按ID删除单条记录") with true
    by reflexivity.
  cbv iota.
  erewrite bind_returns; [|apply (select_by_id_ok _ t); exact Hdb].
  rewrite (filter_present (id r) (rows t) Hpres).
  erewrite bind_returns; [|apply (delete_by_id_ok _ t); exact Hdb].
  do 2 eexists. exists (deleted_table t (id r)).
  split; [reflexivity|]. split; [right; left; reflexivity|].
  split; [reflexivity|]. split; [reflexivity|]. split; [|split; [|split]].
  - intros x. simpl. rewrite filter_In. split.
    + intros [Hx Hne]. split; [exact Hx|]. intros ->.
      rewrite Z.eqb_refl in Hne. discriminate.
    + intros [Hx Hne]. split; [exact Hx|].
      destruct (Z.eqb_spec (id x) (id r)) as [E|E]; [|reflexivity].
      exfalso. apply Hne. now apply (id_unique (rows t)).
  - simpl.
    pose proof (length_filter_split (fun x => id x =? id r) (rows t)) as Hlen.
    rewrite (filter_unique _ _ Hnd Hin) in Hlen. simpl in Hlen. lia.
  - reflexivity.
  - eexists. erewrite select_by_id_ok; [|reflexivity].
    simpl. f_equal. apply filter_absent.
    intros Hx. apply in_map_iff in Hx. destruct Hx as (x & E & Hx).
    apply filter_In in Hx. destruct Hx as [_ Hne].
    rewrite E, Z.eqb_refl in Hne. discriminate.
Qed.

(** X2 on the two-record table: the first record is deleted. *)
Lemma delete_info_removes_exactly_that_row_witness :
  db two_row_world = Some (mkTable [award_row; quoted_row] 2) /\
  NoDup (map id (rows (mkTable [award_row; quoted_row] 2))) /\
  In award_row (rows (mkTable [award_row; quoted_row] 2)) /\
  exists shown w' t',
    delete_info "按ID删除单条记录" 1 true false two_row_world =
      Returns shown w' /\
    db w' = Some t' /\ rows t' = [quoted_row] /\ seq t' = 2.
Proof.
  assert (Hnd : NoDup (map id (rows (mkTable [award_row; quoted_row] 2)))).
  { simpl. constructor.
    - intros [H|[]]. discriminate.
    - constructor; [intros []|constructor]. }
  assert (Hin : In award_row (rows (mkTable [award_row; quoted_row] 2)))
    by (now left).
  split; [reflexivity|]. split; [exact Hnd|]. split; [exact Hin|].
  destruct (delete_info_removes_exactly_that_row two_row_world
              (mkTable [award_row; quoted_row] 2) award_row false
              eq_refl Hnd Hin)
    as (shown & w' & t' & Hrun & _ & Hdb' & Hrows & _ & _ & Hseq & _).
  exists shown, w', t'. auto.
Defined.

(** X3: the delete-all branch (any radio value other than the by-id one)
    clears the table only when the check box is ticked and the button
    pressed; otherwise the table is as before. When it runs, no row is left,
    whatever the table held, and the high-water mark is kept, so with ids
    bounded by it the next INSERT gets an id above every id the table ever
    had. *)
Theorem delete_all_needs_confirm_and_button :
  forall w t delete_option record_id,
    db w = Some t ->
    wf_table t ->
    delete_option <> "按ID删除单条记录" ->
    (forall button confirm,
        button && confirm = false ->
        db (world_of (delete_info delete_option record_id button confirm w)) =
        Some t) /\
    exists shown w' t',
      delete_info delete_option record_id true true w = Returns shown w' /\
      db w' = Some t' /\ rows t' = [] /\ seq t' = seq t /\
      (rows t <> [] -> In (st_success "所有记录已删除！") shown) /\
      forall r, In r (rows t) -> id r < Sqlite.next_id t'.
Proof.
  intros w t opt i Hdb [Hnd Hle] Hopt.
  apply String.eqb_neq in Hopt.
  assert (Hnext : forall t', seq t' = seq t ->
                    forall r, In r (rows t) -> id r < Sqlite.next_id t').
  { intros t' Hseq r Hr. rewrite Forall_forall in Hle. specialize (Hle r Hr).
    pose proof (seq_lt_next_id t'). lia. }
  split.
  - intros button confirm Hbc. unfold delete_info.
    rewrite (bind_returns _ _ _ _ _ (select_ordered_ok w t Hdb)).
    destruct (empty _); [exact Hdb|]. rewrite Hopt.
    destruct confirm; [|exact Hdb].
    destruct button; [discriminate|exact Hdb].
  - unfold delete_info.
    rewrite (bind_returns _ _ _ _ _ (select_ordered_ok w t Hdb)).
    rewrite empty_order_by.
    destruct (rows t) as [|r0 l] eqn:Hrows.
    + cbn [empty]. do 2 eexists. exists t.
      split; [reflexivity|]. split; [exact Hdb|]. split; [exact Hrows|].
      split; [reflexivity|]. split; [congruence|]. intros r [].
    + cbn [empty]. rewrite Hopt.
      erewrite bind_returns; [|apply (delete_all_ok _ t); exact Hdb].
      do 2 eexists. exists (mkTable [] (seq t)).
      split; [reflexivity|]. split; [reflexivity|]. split; [reflexivity|].
      split; [reflexivity|].
      split; [intros _; right; right; left; reflexivity|].
      now apply Hnext.
Qed.

(** X3 on the two-record table. *)
Lemma delete_all_needs_confirm_and_button_witness :
  db two_row_world = Some (mkTable [award_row; quoted_row] 2) /\
  wf_table (mkTable [award_row; quoted_row] 2) /\
  "删除所有记录" <> "按ID删除单条记录" /\
  db (world_of (delete_info "删除所有记录" 1 true false two_row_world)) =
    Some (mkTable [award_row; quoted_row] 2) /\
  exists shown w',
    delete_info "删除所有记录" 1 true true two_row_world = Returns shown w' /\
    db w' = Some (mkTable [] 2).
Proof.
  assert (Hwf : wf_table (mkTable [award_row; quoted_row] 2)).
  { split; simpl.
    - constructor.
      + intros [H|[]]. discriminate.
      + constructor; [intros []|constructor].
    - repeat constructor; simpl; lia. }
  assert (Hopt : "删除所有记录" <> "按ID删除单条记录") by discriminate.
  split; [reflexivity|]. split; [exact Hwf|]. split; [exact Hopt|].
  destruct (delete_all_needs_confirm_and_button two_row_world
              (mkTable [award_row; quoted_row] 2) "删除所有记录" 1
              eq_refl Hwf Hopt) as (Hkeep & shown & w' & t' & Hrun & Hdb'
                                    & Hrows & Hseq & _).
  split; [apply (Hkeep true false); reflexivity|].
  exists shown, w'. split; [exact Hrun|].
  rewrite Hdb'. destruct t' as [rs s]. simpl in Hrows, Hseq. now subst.
Defined.

(** ** Runs that must not write *)

Lemma edit_info_not_submitted w t sel ti ca pr st ta no sub can :
  db w = Some t ->
  sub = false \/ can = true \/ ti = "" ->
  db (world_of (edit_info sel ti ca pr st ta no sub can w)) = Some t.
Proof.
  intros Hdb Hidle. unfold edit_info.
  rewrite (bind_returns _ _ _ _ _ (select_ordered_ok w t Hdb)).
  destruct (empty _); [exact Hdb|].
  destruct (not_ sel); [exact Hdb|].
  destruct (getitem _ sel) as [record_id|]; [|exact Hdb].
  rewrite bind_lift_some.
  destruct (iloc0 record_id _) as [record_data|]; [|exact Hdb].
  rewrite bind_lift_some.
  unfold bind at 1.
  destruct (initial_positions record_data _) as [p w1|e w1] eqn:Hp.
  - apply initial_positions_enumerated in Hp. destruct Hp as [_ ->].
    destruct can; [exact Hdb|].
    destruct sub; [|exact Hdb].
    destruct Hidle as [H|[H| ->]]; try discriminate. exact Hdb.
  - apply initial_positions_raises in Hp. destruct Hp as (_ & -> & _).
    exact Hdb.
Qed.

(** X4: a run in which no button takes effect writes nothing. The add page
    with its form not submitted does not even open a connection; the edit
    page not submitted, or cancelled, or submitted with an empty title, the
    delete page with its button not pressed, the overview and the download
    section all leave the table exactly as it was. *)
Theorem pages_write_only_on_a_button :
  forall w t,
    db w = Some t ->
    (forall ti ca pr st ta no,
        add_info ti ca pr st ta no false w = Returns [] w) /\
    (forall sel ti ca pr st ta no sub can,
        sub = false \/ can = true \/ ti = "" ->
        db (world_of (edit_info sel ti ca pr st ta no sub can w)) = Some t) /\
    (forall delete_option record_id confirm,
        db (world_of (delete_info delete_option record_id false confirm w)) =
        Some t) /\
    db (world_of (show_data_overview w)) = Some t /\
    db (world_of (add_download_section w)) = Some t.
Proof.
  intros w t Hdb. split; [|split; [|split; [|split]]].
  - reflexivity.
  - intros. now apply edit_info_not_submitted.
  - intros opt i confirm. unfold delete_info.
    rewrite (bind_returns _ _ _ _ _ (select_ordered_ok w t Hdb)).
    destruct (empty _); [exact Hdb|].
    destruct (String.eqb opt _); [exact Hdb|].
    destruct confirm; exact Hdb.
  - unfold show_data_overview.
    rewrite (bind_returns _ _ _ _ _ (select_ordered_ok w t Hdb)).
    destruct (empty _); exact Hdb.
  - unfold add_download_section.
    rewrite (bind_returns _ _ _ _ _ (select_all_ok w t Hdb)).
    destruct (negb _); exact Hdb.
Qed.

(** X4 on the one-record table. *)
Lemma pages_write_only_on_a_button_witness :
  db one_row_world = Some (mkTable [award_row] 1) /\
  add_info "Diploma" "证书" "中" "已完成" "" "" false one_row_world =
    Returns [] one_row_world /\
  db (world_of (edit_info (option_key award_row) "Renamed" "证书" "中"
                  "已完成" "" "" true true one_row_world)) =
    Some (mkTable [award_row] 1) /\
  db (world_of (delete_info "删除所有记录" 1 false true one_row_world)) =
    Some (mkTable [award_row] 1).
Proof.
  split; [reflexivity|].
  destruct (pages_write_only_on_a_button one_row_world
              (mkTable [award_row] 1) eq_refl)
    as (Hadd & Hedit & Hdelete & _).
  split; [apply Hadd|]. split; [apply Hedit; right; now left|apply Hdelete].
Defined.

(** X5: the edit page checks the title like the add page does: for a
    record of the table whose stored choice values are listed, submitting an
    empty title shows the validation error; only the listing query has been
    sent and the table is unchanged. *)
Theorem edit_info_requires_title :
  forall w t r ca pr st ta no,
    db w = Some t ->
    NoDup (map id (rows t)) ->
    In r (rows t) ->
    enumerated r ->
    exists w',
      edit_info (option_key r) "" ca pr st ta no true false w =
        Returns [ValidationError] w' /\
      db w' = Some t /\
      issued w' = (issued w ++ [(Sqlite.SELECT_ORDERED, [])])%list /\
      open_connections w' = open_connections w.
Proof.
  intros w t r ca pr st ta no Hdb Hnd Hin Henum.
  rewrite (edit_info_selected w t r) by assumption.
  destruct (initial_positions_returns r
              (mkWorld (db w) (open_connections w)
                 (sent Sqlite.SELECT_ORDERED [] w) (now w)) Henum) as [p Hp].
  rewrite (bind_returns _ _ _ _ _ Hp). cbn [not_].
  eexists. split; [reflexivity|]. simpl. auto.
Qed.

(** X5 on the one-record table. *)
Lemma edit_info_requires_title_witness :
  db one_row_world = Some (mkTable [award_row] 1) /\
  NoDup (map id (rows (mkTable [award_row] 1))) /\
  In award_row (rows (mkTable [award_row] 1)) /\
  enumerated award_row /\
  exists w',
    edit_info (option_key award_row) "" "证书" "中" "已完成" "" "" true false
      one_row_world = Returns [ValidationError] w' /\
    db w' = Some (mkTable [award_row] 1).
Proof.
  assert (Hnd : NoDup (map id (rows (mkTable [award_row] 1)))).
  { simpl. constructor; [intros []|constructor]. }
  assert (Hin : In award_row (rows (mkTable [award_row] 1))) by (now left).
  assert (Henum : enumerated award_row).
  { repeat split; simpl; auto 10. }
  split; [reflexivity|]. split; [exact Hnd|]. split; [exact Hin|].
  split; [exact Henum|].
  destruct (edit_info_requires_title one_row_world (mkTable [award_row] 1)
              award_row "证书" "中" "已完成" "" "" eq_refl Hnd Hin Henum)
    as (w' & Hrun & Hdb' & _).
  exists w'. auto.
Defined.

(** ** Adding, then reading or deleting *)

Lemma filter_id_snoc l (r : row) :
  ~ In (id r) (map id l) ->
  filter (fun x => id x =? id r) (l ++ [r]) = [r].
Proof.
  intros H. rewrite filter_app, filter_absent by exact H.
  simpl. now rewrite Z.eqb_refl.
Qed.

(** X6: a record added through the add page can be read back: the id the
    INSERT assigned selects exactly one row, which holds the six submitted
    values and the timestamp of the clock; the listing then has one record
    more and contains that row. *)
Theorem add_info_then_read_back :
  forall w t ti ca pr st ta no,
    db w = Some t ->
    ti <> "" ->
    let new := mkRow (Sqlite.next_id t) ti ca no pr st ta
                 (Sqlite.CURRENT_TIMESTAMP (now w)) in
    exists w1 w2 w3 df,
      add_info ti ca pr st ta no true w =
        Returns [st_success "信息添加成功！"] w1 /\
      execute_query Sqlite.SELECT_BY_ID [VInt (Sqlite.next_id t)] w1 =
        Returns [new] w2 /\
      execute_query Sqlite.SELECT_ORDERED [] w1 = Returns df w3 /\
      In new df /\
      List.length df = S (List.length (rows t)).
Proof.
  intros w t ti ca pr st ta no Hdb Hti new.
  do 3 eexists. exists (Sqlite.order_by_created_at_desc (rows t ++ [new])).
  split; [apply (add_info_submitted w t); assumption|].
  split.
  { erewrite select_by_id_ok; [|reflexivity]. simpl. f_equal.
    apply (filter_id_snoc (rows t) new). apply next_id_absent. }
  split; [erewrite select_ordered_ok; [|reflexivity]; reflexivity|].
  pose proof (order_by_perm (rows t ++ [new])) as Hperm. split.
  - eapply Permutation_in; [exact Hperm|]. apply in_app_iff. right. now left.
  - rewrite <- (Permutation_length Hperm), length_app. simpl. lia.
Qed.

(** X6 on the one-record table. *)
Lemma add_info_then_read_back_witness :
  db one_row_world = Some (mkTable [award_row] 1) /\
  "Diploma" <> "" /\
  exists w1 w2,
    add_info "Diploma" "教育经历" "中" "已完成" "" "" true one_row_world =
      Returns [st_success "信息添加成功！"] w1 /\
    execute_query Sqlite.SELECT_BY_ID [VInt 2] w1 =
      Returns [mkRow 2 "Diploma" "教育经历" "" "中" "已完成" ""
                 "2024-05-17 12:00:00"] w2.
Proof.
  assert (Hti : "Diploma" <> "") by discriminate.
  split; [reflexivity|]. split; [exact Hti|].
  destruct (add_info_then_read_back one_row_world (mkTable [award_row] 1)
              "Diploma" "教育经历" "中" "已完成" "" "" eq_refl Hti)
    as (w1 & w2 & _ & _ & Hadd & Hread & _).
  exists w1, w2. split; [exact Hadd|exact Hread].
Defined.

(** X7: adding a record and then deleting it by its id gives back the rows
    the table had, in their order; but the high-water mark has moved, so the
    next INSERT does not receive the deleted id again. *)
Theorem add_then_delete_restores_rows :
  forall w t ti ca pr st ta no confirm,
    db w = Some t ->
    ti <> "" ->
    exists w1 shown w2 t2,
      add_info ti ca pr st ta no true w =
        Returns [st_success "信息添加成功！"] w1 /\
      delete_info "按ID删除单条记录" (Sqlite.next_id t) true confirm w1 =
        Returns shown w2 /\
      db w2 = Some t2 /\
      rows t2 = rows t /\
      seq t2 = Sqlite.next_id t /\
      Sqlite.next_id t < Sqlite.next_id t2.
Proof.
  intros w t ti ca pr st ta no confirm Hdb Hti.
  set (f := mkFields ti ca no pr st ta).
  eexists.
  edestruct (delete_info_present
               (mkWorld (Some (inserted_table t f (now w)))
                  (open_connections w)
                  (sent Sqlite.INSERT (insert_params f) w) (now w))
               (inserted_table t f (now w)) (Sqlite.next_id t) confirm
               eq_refl) as [shown Hrun].
  { unfold present. simpl. rewrite map_app, in_app_iff. right. now left. }
  exists shown. do 2 eexists.
  split; [apply (add_info_submitted w t); assumption|].
  split; [exact Hrun|]. split; [reflexivity|].
  split; [|split; [reflexivity|]].
  - simpl. rewrite filter_app, filter_others_absent by apply next_id_absent.
    simpl. rewrite Z.eqb_refl. simpl. apply app_nil_r.
  - apply (seq_lt_next_id (deleted_table (inserted_table t f (now w))
                             (Sqlite.next_id t))).
Qed.

(** X7 on the one-record table. *)
Lemma add_then_delete_restores_rows_witness :
  db one_row_world = Some (mkTable [award_row] 1) /\
  "Diploma" <> "" /\
  exists w1 shown w2,
    add_info "Diploma" "教育经历" "中" "已完成" "" "" true one_row_world =
      Returns [st_success "信息添加成功！"] w1 /\
    delete_info "按ID删除单条记录" 2 true false w1 = Returns shown w2 /\
    db w2 = Some (mkTable [award_row] 2).
Proof.
  assert (Hti : "Diploma" <> "") by discriminate.
  split; [reflexivity|]. split; [exact Hti|].
  destruct (add_then_delete_restores_rows one_row_world
              (mkTable [award_row] 1) "Diploma" "教育经历" "中" "已完成" ""
              "" false eq_refl Hti)
    as (w1 & shown & w2 & t2 & Hadd & Hdel & Hdb2 & Hrows & Hseq & _).
  exists w1, shown, w2. split; [exact Hadd|]. split; [exact Hdel|].
  rewrite Hdb2. destruct t2 as [rs s]. simpl in Hrows, Hseq. now subst.
Defined.

(** ** Whole script runs: connections and engine errors *)

Lemma runs_clean_ret {A : Type} (a : A) : runs_clean (ret a).
Proof. intros w Hdb. repeat split; [exact Hdb|discriminate]. Qed.

Lemma runs_clean_lift {A : Type} (e : exn) (o : option A) :
  e <> DatabaseError -> runs_clean (lift e o).
Proof.
  intros He w Hdb. destruct o; simpl.
  - repeat split; [exact Hdb|discriminate].
  - repeat split; [exact Hdb|]. intros e' w' H. injection H as <- _. exact He.
Qed.

Lemma runs_clean_bind {A B : Type} (m : M A) (k : A -> M B) :
  runs_clean m -> (forall a, runs_clean (k a)) -> runs_clean (bind m k).
Proof.
  intros Hm Hk w Hdb. destruct (Hm w Hdb) as (Hdb1 & Hc1 & He1). unfold bind.
  destruct (m w) as [a w1|e w1]; simpl in Hdb1, Hc1.
  - destruct (Hk a w1 Hdb1) as (Hdb2 & Hc2 & He2).
    split; [exact Hdb2|]. split; [congruence|exact He2].
  - simpl. split; [exact Hdb1|]. split; [exact Hc1|].
    intros e' w' H. injection H as <- <-. now apply (He1 e w1).
Qed.

Lemma runs_clean_if {A : Type} (b : bool) (m1 m2 : M A) :
  runs_clean m1 -> runs_clean m2 -> runs_clean (if b then m1 else m2).
Proof. now destruct b. Qed.

Lemma runs_clean_returns {A : Type} (m : M A) :
  (forall w t, db w = Some t ->
     exists a w', m w = Returns a w' /\ db w' <> None /\
                  open_connections w' = open_connections w) ->
  runs_clean m.
Proof.
  intros H w Hdb. destruct (db w) as [t|] eqn:E; [|contradiction].
  destruct (H w t E) as (a & w' & -> & Hdb' & Hc). simpl.
  repeat split; [exact Hdb'|exact Hc|discriminate].
Qed.

Lemma runs_clean_select_ordered :
  runs_clean (execute_query Sqlite.SELECT_ORDERED []).
Proof.
  apply runs_clean_returns. intros w t Hdb.
  rewrite (select_ordered_ok w t Hdb). do 2 eexists.
  split; [reflexivity|]. simpl. split; [congruence|reflexivity].
Qed.

Lemma runs_clean_select_by_id i :
  runs_clean (execute_query Sqlite.SELECT_BY_ID [VInt i]).
Proof.
  apply runs_clean_returns. intros w t Hdb.
  rewrite (select_by_id_ok w t i Hdb). do 2 eexists.
  split; [reflexivity|]. simpl. split; [congruence|reflexivity].
Qed.

Lemma runs_clean_select_all :
  runs_clean (execute_query Sqlite.SELECT_ALL []).
Proof.
  apply runs_clean_returns. intros w t Hdb.
  rewrite (select_all_ok w t Hdb). do 2 eexists.
  split; [reflexivity|]. simpl. split; [congruence|reflexivity].
Qed.

Lemma runs_clean_insert ti ca no pr st ta :
  runs_clean
    (execute_update Sqlite.INSERT
       [VText ti; VText ca; VText no; VText pr; VText st; VText ta]).
Proof.
  apply runs_clean_returns. intros w t Hdb.
  rewrite (insert_ok_explicit w t ti ca no pr st ta Hdb). do 2 eexists.
  split; [reflexivity|]. simpl. split; [discriminate|reflexivity].
Qed.

Lemma runs_clean_update ti ca no pr st ta i :
  runs_clean
    (execute_update Sqlite.UPDATE
       [VText ti; VText ca; VText no; VText pr; VText st; VText ta; VInt i]).
Proof.
  apply runs_clean_returns. intros w t Hdb.
  rewrite (update_ok_explicit w t ti ca no pr st ta i Hdb). do 2 eexists.
  split; [reflexivity|]. simpl. split; [discriminate|reflexivity].
Qed.

Lemma runs_clean_delete_by_id i :
  runs_clean (execute_update Sqlite.DELETE_BY_ID [VInt i]).
Proof.
  apply runs_clean_returns. intros w t Hdb.
  rewrite (delete_by_id_ok w t i Hdb). do 2 eexists.
  split; [reflexivity|]. simpl. split; [discriminate|reflexivity].
Qed.

Lemma runs_clean_delete_all :
  runs_clean (execute_update Sqlite.DELETE_ALL []).
Proof.
  apply runs_clean_returns. intros w t Hdb.
  rewrite (delete_all_ok w t Hdb). do 2 eexists.
  split; [reflexivity|]. simpl. split; [discriminate|reflexivity].
Qed.

Lemma runs_clean_init_database : runs_clean init_database.
Proof.
  apply runs_clean_returns. intros w t Hdb.
  rewrite (init_database_ok w t Hdb). do 2 eexists.
  split; [reflexivity|]. simpl. split; [congruence|reflexivity].
Qed.

Create HintDb clean.
#[local] Hint Resolve runs_clean_ret runs_clean_lift runs_clean_if
  runs_clean_select_ordered runs_clean_select_by_id runs_clean_select_all
  runs_clean_insert runs_clean_update runs_clean_delete_by_id
  runs_clean_delete_all runs_clean_init_database : clean.
#[local] Hint Extern 1 (_ <> DatabaseError) => discriminate : clean.

Ltac clean :=
  repeat first
    [ solve [auto with clean]
    | apply runs_clean_if
    | apply runs_clean_bind; [|intros ?] ].

Lemma main_runs_clean p : runs_clean (main p).
Proof.
  destruct p; simpl.
  - unfold show_data_overview. clean.
  - unfold add_info. clean.
  - unfold edit_info, initial_positions. clean.
  - unfold delete_info. clean.
Qed.

Lemma add_download_section_runs_clean : runs_clean add_download_section.
Proof. unfold add_download_section. clean. Qed.

(** X8: a whole script run, for any page and widget values and from any
    world, also one whose database has no table yet, ends with the table in
    place and with as many connections open as before it started; if it
    raises, it is not with an engine error. *)
Theorem script_leaves_no_connection_open :
  forall menu w,
    db (world_of (script menu w)) <> None /\
    open_connections (world_of (script menu w)) = open_connections w /\
    forall e w', script menu w = Raises e w' -> e <> DatabaseError.
Proof.
  intros menu w. unfold script.
  destruct (init_database_creates w) as (w1 & Hinit & Hdb1).
  rewrite (bind_returns _ _ _ _ _ Hinit).
  assert (Hc1 : open_connections w1 = open_connections w).
  { revert Hinit. unfold_m. simpl. destruct (db w); intros H;
      injection H as <-; reflexivity. }
  assert (Hdb : db w1 <> None) by (rewrite Hdb1; destruct (db w); discriminate).
  assert (Hclean : runs_clean (shown <- main menu ;;
                               download <- add_download_section ;;
                               ret (shown, download))).
  { apply runs_clean_bind; [apply main_runs_clean|intros shown].
    apply runs_clean_bind; [apply add_download_section_runs_clean|].
    intros download. apply runs_clean_ret. }
  destruct (Hclean w1 Hdb) as (Hdb2 & Hc2 & He2).
  split; [exact Hdb2|]. split; [congruence|exact He2].
Qed.

(** ** The overview's metrics *)

Lemma count_perm (p : row -> bool) l l' :
  Permutation l l' -> count p l = count p l'.
Proof.
  unfold count. induction 1 as [|x l l' Hp IH|x y l|l l' l'' H1 IH1 H2 IH2];
    simpl.
  - reflexivity.
  - destruct (p x); simpl; congruence.
  - destruct (p x), (p y); reflexivity.
  - congruence.
Qed.

Lemma count_le (p : row -> bool) l : (count p l <= List.length l)%nat.
Proof. unfold count. apply filter_length_le. Qed.

Lemma nunique_perm l l' : Permutation l l' -> nunique l = nunique l'.
Proof.
  intros Hp. unfold nunique. apply Permutation_length.
  apply NoDup_Permutation; try apply NoDup_nodup.
  intros x. rewrite !nodup_In. split; apply Permutation_in;
    [exact Hp|now apply Permutation_sym].
Qed.

Lemma nunique_le l : (nunique l <= List.length l)%nat.
Proof.
  unfold nunique. apply NoDup_incl_length; [apply NoDup_nodup|].
  intros x Hx. now apply nodup_In in Hx.
Qed.

Lemma nunique_pos l : l <> [] -> (1 <= nunique l)%nat.
Proof.
  unfold nunique. destruct l as [|x l]; [congruence|]. intros _.
  assert (Hin : In x (nodup string_dec (x :: l))) by (apply nodup_In; now left).
  destruct (nodup string_dec (x :: l)); [destruct Hin|simpl; lia].
Qed.

(** X9: on a table with rows the overview shows the listing followed by
    four metrics that describe the table itself, whatever the order of the
    listing: the number of rows, the number of distinct categories (at least
    one, at most the number of rows), the number of rows whose status is the
    in-progress one and the number whose priority is the high one (neither
    above the number of rows). On an empty table it shows the no-data notice
    only. *)
Theorem show_data_overview_metrics :
  forall w t,
    db w = Some t ->
    (rows t = [] ->
     exists w',
       show_data_overview w =
         Returns [st_info "暂无数据，请先添加个人信息"] w') /\
    (rows t <> [] ->
     exists df total cats doing high w',
       show_data_overview w =
         Returns [st_dataframe df; st_metric "总记录数" total;
                  st_metric "类别数量" cats; st_metric "进行中" doing;
                  st_metric "高优先级" high] w' /\
       total = List.length (rows t) /\
       cats = nunique (map category (rows t)) /\
       doing = count (fun r => String.eqb (status r) "进行中") (rows t) /\
       high = count (fun r => String.eqb (priority r) "高") (rows t) /\
       (1 <= cats <= total)%nat /\ (doing <= total)%nat /\
       (high <= total)%nat).
Proof.
  intros w t Hdb. unfold show_data_overview.
  rewrite (bind_returns _ _ _ _ _ (select_ordered_ok w t Hdb)).
  rewrite empty_order_by.
  pose proof (order_by_perm (rows t)) as Hperm.
  split; intros Hrows.
  - rewrite Hrows. eexists. reflexivity.
  - assert (Hne : empty (rows t) = false)
      by (destruct (rows t); [congruence|reflexivity]).
    rewrite Hne. do 6 eexists. split; [reflexivity|].
    split; [symmetry; now apply Permutation_length|].
    split; [symmetry; apply nunique_perm; now apply Permutation_map|].
    split; [symmetry; now apply count_perm|].
    split; [symmetry; now apply count_perm|].
    rewrite <- (Permutation_length Hperm).
    rewrite <- (nunique_perm _ _ (Permutation_map category Hperm)).
    rewrite <- !(count_perm _ _ _ Hperm).
    split; [split|split].
    + apply nunique_pos. intros E. apply Hrows.
      now apply map_eq_nil in E.
    + rewrite <- (length_map category). apply nunique_le.
    + apply count_le.
    + apply count_le.
Qed.

(** X9 on the two-record table. *)
Lemma show_data_overview_metrics_witness :
  db two_row_world = Some (mkTable [award_row; quoted_row] 2) /\
  exists df w',
    show_data_overview two_row_world =
      Returns [st_dataframe df; st_metric "总记录数" 2;
               st_metric "类别数量" 2; st_metric "进行中" 1;
               st_metric "高优先级" 1] w'.
Proof.
  split; [reflexivity|].
  destruct (show_data_overview_metrics two_row_world
              (mkTable [award_row; quoted_row] 2) eq_refl) as [_ H].
  destruct H as (df & total & cats & doing & high & w' & Hrun & -> & -> & ->
                 & -> & _); [discriminate|].
  exists df, w'. exact Hrun.
Defined.

(** ** Editing and the listing *)

Lemma insert_desc_map (g : row -> row) r l :
  (forall x, created_at (g x) = created_at x) ->
  Sqlite.insert_desc (g r) (map g l) = map g (Sqlite.insert_desc r l).
Proof.
  intros Hg. induction l as [|x l IH]; simpl; [reflexivity|].
  rewrite !Hg. destruct (Sqlite.text_lt (created_at r) (created_at x)); simpl.
  - now rewrite IH.
  - reflexivity.
Qed.

Lemma order_by_map (g : row -> row) l :
  (forall x, created_at (g x) = created_at x) ->
  Sqlite.order_by_created_at_desc (map g l) =
  map g (Sqlite.order_by_created_at_desc l).
Proof.
  intros Hg. induction l as [|r l IH]; simpl; [reflexivity|].
  rewrite IH. now apply insert_desc_map.
Qed.

(** X10: editing a record does not move it in the listing. After a
    successful edit the listing is the listing from before with the edited
    row replaced where it stood: the same ids and the same [created_at]
    values in the same order. *)
Theorem edit_info_keeps_listing_order :
  forall w t r ti ca pr st ta no,
    db w = Some t ->
    NoDup (map id (rows t)) ->
    In r (rows t) ->
    enumerated r ->
    ti <> "" ->
    let new := mkRow (id r) ti ca no pr st ta (created_at r) in
    exists df w0 w1 df' w2,
      execute_query Sqlite.SELECT_ORDERED [] w = Returns df w0 /\
      edit_info (option_key r) ti ca pr st ta no true false w =
        Returns [st_success "信息更新成功！"] w1 /\
      execute_query Sqlite.SELECT_ORDERED [] w1 = Returns df' w2 /\
      df' = map (fun x => if id x =? id r then new else x) df /\
      map id df' = map id df /\
      map created_at df' = map created_at df.
Proof.
  intros w t r ti ca pr st ta no Hdb Hnd Hin Henum Hti new.
  set (f := mkFields ti ca no pr st ta).
  set (g := fun x : row => if id x =? id r then overwrite f x else x).
  assert (Hg : forall x, created_at (g x) = created_at x)
    by (intros x; apply created_at_update_branch).
  assert (Hgid : forall x, id (g x) = id x)
    by (intros x; apply id_update_branch).
  exists (Sqlite.order_by_created_at_desc (rows t)). eexists. eexists.
  exists (map g (Sqlite.order_by_created_at_desc (rows t))). eexists.
  split; [apply (select_ordered_ok w t Hdb)|].
  split; [apply (edit_info_submitted w t r); assumption|].
  split.
  { erewrite select_ordered_ok; [|reflexivity]. simpl.
    now rewrite (order_by_map g). }
  split.
  { apply map_ext_in. intros x Hx. unfold g.
    destruct (Z.eqb_spec (id x) (id r)) as [E|E]; [|reflexivity].
    assert (Hx' : In x (rows t)).
    { eapply Permutation_in; [apply Permutation_sym, order_by_perm|exact Hx]. }
    now rewrite (id_unique (rows t) x r Hnd Hx' Hin E). }
  split.
  - rewrite map_map. apply map_ext. exact Hgid.
  - rewrite map_map. apply map_ext. exact Hg.
Qed.

Lemma wf_two_rows : wf_table (mkTable [award_row; quoted_row] 2).
Proof.
  split; simpl.
  - constructor.
    + intros [H|[]]. discriminate.
    + constructor; [intros []|constructor].
  - repeat constructor; simpl; lia.
Qed.

Lemma enumerated_award_row : enumerated award_row.
Proof. repeat split; simpl; auto 10. Qed.

(** X10 on the two-record table: the older record is renamed and stays
    second in the listing. *)
Lemma edit_info_keeps_listing_order_witness :
  db two_row_world = Some (mkTable [award_row; quoted_row] 2) /\
  NoDup (map id (rows (mkTable [award_row; quoted_row] 2))) /\
  In award_row (rows (mkTable [award_row; quoted_row] 2)) /\
  enumerated award_row /\
  "Renamed" <> "" /\
  exists w1 w2,
    edit_info (option_key award_row) "Renamed" "证书" "低" "已完成" "" "" true
      false two_row_world = Returns [st_success "信息更新成功！"] w1 /\
    execute_query Sqlite.SELECT_ORDERED [] w1 =
      Returns [quoted_row;
               mkRow 1 "Renamed" "证书" "" "低" "已完成" ""
                 "2024-05-17 12:00:00"] w2.
Proof.
  assert (Hin : In award_row (rows (mkTable [award_row; quoted_row] 2)))
    by (now left).
  assert (Hti : "Renamed" <> "") by discriminate.
  split; [reflexivity|]. split; [apply wf_two_rows|]. split; [exact Hin|].
  split; [exact enumerated_award_row|]. split; [exact Hti|].
  destruct (edit_info_keeps_listing_order two_row_world
              (mkTable [award_row; quoted_row] 2) award_row
              "Renamed" "证书" "低" "已完成" "" "" eq_refl
              (proj1 wf_two_rows) Hin enumerated_award_row Hti)
    as (df & w0 & w1 & df' & w2 & Hlist & Hedit & Hlist' & Hdf' & _).
  exists w1, w2. split; [exact Hedit|].
  rewrite Hlist', Hdf'.
  assert (Hdf : df = [quoted_row; award_row]).
  { assert (E : Returns df w0 =
                Returns (Sqlite.order_by_created_at_desc
                           [award_row; quoted_row])
                  (mkWorld (db two_row_world) (open_connections two_row_world)
                     (sent Sqlite.SELECT_ORDERED [] two_row_world)
                     (now two_row_world))).
    { rewrite <- Hlist. apply (select_ordered_ok two_row_world
                                 (mkTable [award_row; quoted_row] 2) eq_refl). }
    injection E as -> _. reflexivity. }
  rewrite Hdf. reflexivity.
Defined.

(** ** The select box of the edit page *)

Lemma getitem_none df k :
  ~ In k (map option_key df) -> getitem (record_options df) k = None.
Proof.
  induction df as [|r df IH]; simpl; intros H; [reflexivity|].
  rewrite IH by (intros Hin; apply H; now right).
  destruct (String.eqb_spec (option_key r) k) as [E|E]; [|reflexivity].
  exfalso. apply H. now left.
Qed.

(** X11: the keys of the edit page's select box identify the records.
    In a table with unique ids two different records never get the same key,
    even under the same title, and a key looks up the very record it was
    made for. A key that belongs to no record raises [KeyError] and leaves
    the table alone. *)
Theorem select_box_keys_identify_records :
  forall w t,
    db w = Some t ->
    NoDup (map id (rows t)) ->
    let df := Sqlite.order_by_created_at_desc (rows t) in
    (forall r1 r2,
        In r1 (rows t) -> In r2 (rows t) ->
        option_key r1 = option_key r2 -> r1 = r2) /\
    (forall r, In r (rows t) ->
        getitem (record_options df) (option_key r) = Some (id r) /\
        iloc0 (id r) df = Some r) /\
    (forall sel ti ca pr st ta no sub can,
        rows t <> [] -> sel <> "" ->
        ~ In sel (map option_key (rows t)) ->
        exists w',
          edit_info sel ti ca pr st ta no sub can w = Raises KeyError w' /\
          db w' = Some t).
Proof.
  intros w t Hdb Hnd df.
  pose proof (order_by_perm (rows t)) as Hperm. fold df in Hperm.
  assert (Hnd' : NoDup (map id df)).
  { eapply Permutation_NoDup; [apply Permutation_map, Hperm|exact Hnd]. }
  split; [|split].
  - intros r1 r2 H1 H2 E. apply (id_unique (rows t)); try assumption.
    now apply option_key_inj.
  - intros r Hr.
    assert (Hr' : In r df) by (eapply Permutation_in; eassumption).
    split; [now apply getitem_key|].
    unfold iloc0. now rewrite (filter_unique _ _ Hnd' Hr').
  - intros sel ti ca pr st ta no sub can Hrows Hsel Hnot.
    unfold edit_info.
    rewrite (bind_returns _ _ _ _ _ (select_ordered_ok w t Hdb)).
    rewrite empty_order_by.
    replace (empty (rows t)) with false
      by (destruct (rows t); [congruence|reflexivity]).
    replace (not_ sel) with false by (destruct sel; [congruence|reflexivity]).
    rewrite getitem_none.
    + eexists. split; [reflexivity|exact Hdb].
    + intros Hin. apply Hnot. apply in_map_iff in Hin.
      destruct Hin as (x & E & Hx). apply in_map_iff. exists x.
      split; [exact E|].
      eapply Permutation_in; [apply Permutation_sym, Hperm|exact Hx].
Qed.

(** X11 on a table with two records of the same title. *)
Lemma select_box_keys_identify_records_witness :
  db (mkWorld (Some (mkTable [award_row; namesake_row] 2)) 0 [] one_pm) =
    Some (mkTable [award_row; namesake_row] 2) /\
  NoDup (map id (rows (mkTable [award_row; namesake_row] 2))) /\
  option_key award_row <> option_key namesake_row /\
  getitem (record_options
             (Sqlite.order_by_created_at_desc [award_row; namesake_row]))
    (option_key namesake_row) = Some 2.
Proof.
  assert (Hnd : NoDup (map id (rows (mkTable [award_row; namesake_row] 2)))).
  { simpl. constructor.
    - intros [H|[]]. discriminate.
    - constructor; [intros []|constructor]. }
  split; [reflexivity|]. split; [exact Hnd|].
  destruct (select_box_keys_identify_records
              (mkWorld (Some (mkTable [award_row; namesake_row] 2)) 0 []
                 one_pm)
              (mkTable [award_row; namesake_row] 2) eq_refl Hnd)
    as (Hinj & Hget & _).
  split.
  - intros E.
    assert (H : award_row = namesake_row).
    { apply Hinj; [now left|right; now left|exact E]. }
    discriminate H.
  - apply (Hget namesake_row). right. now left.
Defined.

(** ** Submitting the same edit twice *)

(** X12: an edit is idempotent. After a successful edit of a record,
    selecting the record again (under its new key) and submitting the same
    values, these being among the widgets' options, succeeds and leaves the
    table as the first edit left it. *)
Theorem edit_info_twice_is_once :
  forall w t r ti ca pr st ta no,
    db w = Some t ->
    NoDup (map id (rows t)) ->
    In r (rows t) ->
    enumerated r ->
    ti <> "" ->
    In ca categories -> In pr priorities -> In st statuses ->
    let new := mkRow (id r) ti ca no pr st ta (created_at r) in
    exists w1 w2,
      edit_info (option_key r) ti ca pr st ta no true false w =
        Returns [st_success "信息更新成功！"] w1 /\
      edit_info (option_key new) ti ca pr st ta no true false w1 =
        Returns [st_success "信息更新成功！"] w2 /\
      db w2 = db w1.
Proof.
  intros w t r ti ca pr st ta no Hdb Hnd Hin Henum Hti Hca Hpr Hst new.
  set (f := mkFields ti ca no pr st ta).
  set (g := fun x : row => if id x =? id r then overwrite f x else x).
  assert (Hgr : g r = new) by (unfold g; now rewrite Z.eqb_refl).
  assert (Hnd1 : NoDup (map id (rows (updated_table t f (id r))))).
  { simpl. rewrite map_id_update; [exact Hnd|].
    intros x. apply id_update_branch. }
  assert (Hin1 : In new (rows (updated_table t f (id r)))).
  { simpl. rewrite <- Hgr. now apply in_map. }
  do 2 eexists.
  split; [apply (edit_info_submitted w t r); assumption|].
  split.
  - apply (edit_info_submitted _ (updated_table t f (id r)) new);
      [reflexivity|exact Hnd1|exact Hin1|now repeat split|exact Hti].
  - simpl. f_equal. unfold updated_table. simpl. f_equal.
    rewrite map_map. apply map_ext. intros x.
    destruct (Z.eqb_spec (id x) (id r)) as [E|E]; simpl.
    + now rewrite E, Z.eqb_refl.
    + destruct (Z.eqb_spec (id x) (id r)); [contradiction|reflexivity].
Qed.

(** X12 on the one-record table. *)
Lemma edit_info_twice_is_once_witness :
  db one_row_world = Some (mkTable [award_row] 1) /\
  NoDup (map id (rows (mkTable [award_row] 1))) /\
  In award_row (rows (mkTable [award_row] 1)) /\
  enumerated award_row /\ "Renamed" <> "" /\
  In "证书" categories /\ In "低" priorities /\ In "已完成" statuses /\
  exists w1 w2,
    edit_info (option_key award_row) "Renamed" "证书" "低" "已完成" "" "" true
      false one_row_world = Returns [st_success "信息更新成功！"] w1 /\
    edit_info "Renamed (ID: 1)" "Renamed" "证书" "低" "已完成" "" "" true
      false w1 = Returns [st_success "信息更新成功！"] w2 /\
    db w2 = db w1.
Proof.
  assert (Hnd : NoDup (map id (rows (mkTable [award_row] 1)))).
  { simpl. constructor; [intros []|constructor]. }
  assert (Hin : In award_row (rows (mkTable [award_row] 1))) by (now left).
  assert (Henum : enumerated award_row) by (repeat split; simpl; auto 10).
  assert (Hti : "Renamed" <> "") by discriminate.
  assert (Hca : In "证书" categories) by (simpl; auto 10).
  assert (Hpr : In "低" priorities) by (simpl; auto 10).
  assert (Hst : In "已完成" statuses) by (simpl; auto 10).
  repeat (split; [first [reflexivity|assumption]|]).
  exact (edit_info_twice_is_once one_row_world (mkTable [award_row] 1)
           award_row "Renamed" "证书" "低" "已完成" "" ""
           eq_refl Hnd Hin Henum Hti Hca Hpr Hst).
Defined.

(** ** What every reachable table satisfies *)

Lemma add_info_keeps_titles w t ti ca pr st ta no sub :
  db w = Some t ->
  Forall (fun r => title r <> "") (rows t) ->
  exists t',
    db (world_of (add_info ti ca pr st ta no sub w)) = Some t' /\
    Forall (fun r => title r <> "") (rows t').
Proof.
  intros Hdb Ht. unfold add_info.
  destruct sub; [|now exists t].
  destruct (not_ ti) eqn:Hti; [now exists t|].
  apply not_false_iff in Hti.
  erewrite bind_returns; [|apply (insert_ok_explicit _ t); exact Hdb].
  eexists. split; [reflexivity|]. simpl.
  apply Forall_app. split; [exact Ht|]. now repeat constructor.
Qed.

Lemma edit_info_keeps_titles w t sel ti ca pr st ta no sub can :
  db w = Some t ->
  Forall (fun r => title r <> "") (rows t) ->
  exists t',
    db (world_of (edit_info sel ti ca pr st ta no sub can w)) = Some t' /\
    Forall (fun r => title r <> "") (rows t').
Proof.
  intros Hdb Ht.
  destruct (not_ ti) eqn:Hti.
  - exists t. split; [|exact Ht].
    apply edit_info_not_submitted; [exact Hdb|].
    right. right. destruct ti; [reflexivity|discriminate].
  - apply not_false_iff in Hti.
    destruct (edit_info_binds_listed_id w t sel ti ca pr st ta no sub can Hdb)
      as (t' & Hdb' & [->|(i & _ & ->)]).
    + now exists t.
    + eexists. split; [exact Hdb'|]. simpl. apply Forall_map.
      eapply Forall_impl; [|exact Ht]. simpl. intros r Hr.
      now destruct (id r =? i).
Qed.

Lemma delete_info_keeps_titles w t opt i button confirm :
  db w = Some t ->
  Forall (fun r => title r <> "") (rows t) ->
  exists t',
    db (world_of (delete_info opt i button confirm w)) = Some t' /\
    Forall (fun r => title r <> "") (rows t').
Proof.
  intros Hdb Ht. unfold delete_info.
  rewrite (bind_returns _ _ _ _ _ (select_ordered_ok w t Hdb)).
  destruct (empty _); [now exists t|].
  destruct (String.eqb opt _).
  - destruct button; [|now exists t].
    erewrite bind_returns; [|apply (select_by_id_ok _ t); exact Hdb].
    destruct (empty _); [now exists t|].
    erewrite bind_returns; [|apply (delete_by_id_ok _ t); exact Hdb].
    eexists. split; [reflexivity|]. simpl.
    apply Forall_forall. intros r Hr. apply filter_In in Hr.
    rewrite Forall_forall in Ht. now apply Ht.
  - destruct confirm; [|now exists t].
    destruct button; [|now exists t].
    erewrite bind_returns; [|apply (delete_all_ok _ t); exact Hdb].
    eexists. split; [reflexivity|]. constructor.
Qed.

Lemma main_keeps_sound w t p :
  db w = Some t -> sound t ->
  exists t', db (world_of (main p w)) = Some t' /\ sound t' /\
             now (world_of (main p w)) = now w.
Proof.
  intros Hdb [Hwf Ht].
  destruct (main_step w t p Hdb) as (t' & Hdb' & Hstep & Hnow).
  exists t'. split; [exact Hdb'|]. split; [|exact Hnow]. split.
  - now destruct (table_step_keeps _ _ _ Hwf Hstep) as [H _].
  - assert (H : exists t'', db (world_of (main p w)) = Some t'' /\
                            Forall (fun r => title r <> "") (rows t'')).
    { destruct p; simpl.
      - exists t. split; [|exact Ht]. unfold show_data_overview.
        rewrite (bind_returns _ _ _ _ _ (select_ordered_ok w t Hdb)).
        destruct (empty _); exact Hdb.
      - now apply (add_info_keeps_titles w t).
      - now apply (edit_info_keeps_titles w t).
      - now apply (delete_info_keeps_titles w t). }
    destruct H as (t'' & Hdb'' & Ht''). congruence.
Qed.

Lemma script_keeps_sound w p :
  (forall t, db w = Some t -> sound t) ->
  exists t', db (world_of (script p w)) = Some t' /\ sound t'.
Proof.
  intros Hw. unfold script.
  destruct (init_database_creates w) as (w1 & Hinit & Hdb1).
  rewrite (bind_returns _ _ _ _ _ Hinit).
  assert (H1 : exists t1, db w1 = Some t1 /\ sound t1).
  { destruct (db w) as [t|] eqn:E.
    - exists t. split; [exact Hdb1|now apply Hw].
    - exists (mkTable [] 0). split; [exact Hdb1|].
      split; [apply wf_empty_table|constructor]. }
  destruct H1 as (t1 & Hdb1' & Hs1).
  destruct (main_keeps_sound w1 t1 p Hdb1' Hs1) as (t2 & Hdb2 & Hs2 & _).
  exists t2. split; [|exact Hs2]. unfold bind at 1.
  destruct (main p w1) as [shown w2|e w2]; simpl in Hdb2; [|exact Hdb2].
  unfold add_download_section, bind.
  rewrite (select_all_ok w2 t2 Hdb2).
  destruct (negb (empty (rows t2))); exact Hdb2.
Qed.

(** X13: whatever pages are run, in whatever order and with whatever
    widget values, starting from a database without the table or from a
    table that is well formed with no empty title: after at least one run
    the table exists, its ids are pairwise different and none exceeds the
    high-water mark, and no stored title is empty. *)
Theorem every_run_keeps_ids_unique_and_titles_non_empty :
  forall l w,
    (forall t, db w = Some t -> sound t) ->
    l <> [] ->
    exists t',
      db (runs l w) = Some t' /\
      NoDup (map id (rows t')) /\
      Forall (fun r => id r <= seq t') (rows t') /\
      Forall (fun r => title r <> "") (rows t').
Proof.
  assert (Hgen : forall l w t, db w = Some t -> sound t ->
                   exists t', db (runs l w) = Some t' /\ sound t').
  { induction l as [|[at_ p] l IH]; intros w t Hdb Hs; simpl.
    - now exists t.
    - destruct (script_keeps_sound (tick at_ w) p) as (t1 & Hdb1 & Hs1).
      { intros t0 H0. simpl in H0. congruence. }
      now apply (IH _ t1). }
  intros l w Hw Hl. destruct l as [|[at_ p] l]; [congruence|]. simpl.
  destruct (script_keeps_sound (tick at_ w) p Hw) as (t1 & Hdb1 & Hs1).
  destruct (Hgen l _ t1 Hdb1 Hs1) as (t' & Hdb' & [[Hnd Hle] Ht]).
  exists t'. auto.
Qed.

(** X13 from the blank database: an add, a refused add and a delete. *)
Lemma every_run_keeps_ids_unique_and_titles_non_empty_witness :
  (forall t, db blank_world = Some t -> sound t) /\
  exists t',
    db (runs [(noon, AddInfo "Model Student Award" "荣誉" "高" "进行中" "" ""
                       true);
              (one_pm, AddInfo "" "荣誉" "高" "进行中" "" "" true);
              (one_pm, DeleteInfo "按ID删除单条记录" 1 true false)]
          blank_world) = Some t' /\
    NoDup (map id (rows t')) /\
    Forall (fun r => title r <> "") (rows t').
Proof.
  assert (H : forall t, db blank_world = Some t -> sound t)
    by (intros t Ht; discriminate Ht).
  split; [exact H|].
  destruct (every_run_keeps_ids_unique_and_titles_non_empty
              [(noon, AddInfo "Model Student Award" "荣誉" "高" "进行中" "" ""
                        true);
               (one_pm, AddInfo "" "荣誉" "高" "进行中" "" "" true);
               (one_pm, DeleteInfo "按ID删除单条记录" 1 true false)]
              blank_world H) as (t' & Hdb' & Hnd & _ & Ht).
  - discriminate.
  - exists t'. auto.
Defined.

(** ** The download section in full *)

Lemma lex_eq_r c : lex c Eq = c.
Proof. now destruct c. Qed.

Lemma length_strftime a : String.length (strftime a) = 15%nat.
Proof.
  unfold strftime. repeat rewrite length_append. rewrite !length_pad.
  reflexivity.
Qed.

Lemma compare_strftime a b :
  valid_datetime a -> valid_datetime b ->
  String.compare (strftime a) (strftime b) =
  datetime_compare (truncate_second a) (truncate_second b).
Proof.
  intros (Hy & Hmo & Hd & Hh & Hmi & Hs & _)
         (Hy' & Hmo' & Hd' & Hh' & Hmi' & Hs' & _).
  unfold strftime, datetime_compare, truncate_second.
  cbn [year month day hour minute second microsecond].
  repeat first
    [ rewrite compare_app by now rewrite !length_pad
    | rewrite compare_cons
    | progress change ("_" ++ ?x)%string with (String "_" x) ].
  rewrite !compare_pad by (simpl; lia).
  rewrite Z.compare_refl.
  repeat lazymatch goal with
  | |- lex ?c _ = lex ?c _ => destruct c; cbn [lex]; try reflexivity
  end.
  unfold lex. now destruct (second a ?= second b).
Qed.

Lemma compare_file_name_at a b :
  valid_datetime a -> valid_datetime b ->
  String.compare (file_name_at a) (file_name_at b) =
  datetime_compare (truncate_second a) (truncate_second b).
Proof.
  intros Ha Hb. unfold file_name_at.
  rewrite compare_app by reflexivity.
  rewrite compare_refl. cbn [lex].
  rewrite compare_app by now rewrite !length_strftime.
  rewrite compare_refl, lex_eq_r. now apply compare_strftime.
Qed.

Lemma datetime_compare_eq a b :
  datetime_compare (truncate_second a) (truncate_second b) = Eq ->
  same_second a b.
Proof.
  unfold datetime_compare, same_second, truncate_second.
  cbn [year month day hour minute second microsecond]. unfold lex.
  destruct (Z.compare_spec (year a) (year b)); try discriminate.
  destruct (Z.compare_spec (month a) (month b)); try discriminate.
  destruct (Z.compare_spec (day a) (day b)); try discriminate.
  destruct (Z.compare_spec (hour a) (hour b)); try discriminate.
  destruct (Z.compare_spec (minute a) (minute b)); try discriminate.
  destruct (Z.compare_spec (second a) (second b)); try discriminate.
  intros _. congruence.
Qed.

(** X14: the download section shows nothing for an empty table; for a
    table with rows it offers the CSV text of all rows (the text
    [add_download_section] was shown to hand out), with the number of rows
    in the caption. The file name embeds the local time to the second: for
    clock readings with four-digit years, two exports get the same file name
    exactly when they are made within the same second, and file names sort
    as text in the order of those seconds. *)
Theorem download_file_name_tells_the_second :
  forall w t a b,
    db w = Some t ->
    valid_datetime a -> valid_datetime b ->
    1000 <= year a -> 1000 <= year b ->
    (rows t = [] -> exists w', download_section a w = Returns [] w') /\
    (rows t <> [] ->
     exists w',
       download_section a w =
         Returns [download_button "📥 下载CSV" (Csv.to_csv (rows t))
                    (file_name_at a) "text/csv";
                  sidebar_text
                    ("记录数: " ++ str (Z.of_nat (List.length (rows t))));
                  sidebar_text "数据库路径: data/personal_info.db"] w' /\
       add_download_section w = Returns (Some (Csv.to_csv (rows t))) w') /\
    (file_name_at a = file_name_at b <-> same_second a b) /\
    String.compare (file_name_at a) (file_name_at b) =
      datetime_compare (truncate_second a) (truncate_second b).
Proof.
  intros w t a b Hdb Ha Hb _ _. split; [|split; [|split]].
  - intros Hrows. unfold download_section.
    rewrite (bind_returns _ _ _ _ _ (select_all_ok w t Hdb)).
    rewrite Hrows. eexists. reflexivity.
  - intros Hrows. unfold download_section, add_download_section.
    rewrite !(bind_returns _ _ _ _ _ (select_all_ok w t Hdb)).
    replace (empty (rows t)) with false
      by (destruct (rows t); [congruence|reflexivity]).
    eexists. split; reflexivity.
  - split.
    + intros E. apply datetime_compare_eq.
      rewrite <- compare_file_name_at by assumption.
      rewrite E. apply compare_refl.
    + intros E. unfold file_name_at, strftime.
      unfold same_second, truncate_second in E.
      injection E as -> -> -> -> -> ->. reflexivity.
  - now apply compare_file_name_at.
Qed.

(** X14 on the one-record table, for two exports half a second apart. *)
Lemma download_file_name_tells_the_second_witness :
  db one_row_world = Some (mkTable [award_row] 1) /\
  valid_datetime noon /\ valid_datetime (mkDatetime 2024 5 17 12 0 0 500000) /\
  1000 <= year noon /\ 1000 <= year (mkDatetime 2024 5 17 12 0 0 500000) /\
  file_name_at noon = file_name_at (mkDatetime 2024 5 17 12 0 0 500000) /\
  file_name_at noon = "personal_info_20240517_120000.csv".
Proof.
  assert (Ha : valid_datetime noon) by (unfold valid_datetime; simpl; lia).
  assert (Hb : valid_datetime (mkDatetime 2024 5 17 12 0 0 500000))
    by (unfold valid_datetime; simpl; lia).
  assert (Hya : 1000 <= year noon) by (simpl; lia).
  assert (Hyb : 1000 <= year (mkDatetime 2024 5 17 12 0 0 500000))
    by (simpl; lia).
  split; [reflexivity|]. split; [exact Ha|]. split; [exact Hb|].
  split; [exact Hya|]. split; [exact Hyb|].
  destruct (download_file_name_tells_the_second one_row_world
              (mkTable [award_row] 1) noon
              (mkDatetime 2024 5 17 12 0 0 500000) eq_refl Ha Hb Hya Hyb)
    as (_ & _ & [_ Hsame] & _).
  split; [apply Hsame; reflexivity|reflexivity].
Defined.

(** ** Records of one second in the listing (C10) *)















